(** * IntlFormatter: a shallow embedding of [src/formatter/intlFormatter.ts]

    The class wraps the host's [Intl.NumberFormat].  JavaScript numbers are
    IEEE-754 doubles and are modelled by Rocq's primitive binary64 floats;
    option objects are finite maps from property names to JavaScript values;
    the two objects the class keeps or mutates in place ([this.defaultOptions]
    and the local [safeFormatOptions]) live in an object store; exceptions are
    an explicit completion; the host (the [Intl] and [navigator] globals and
    the number and string conversions of the standard library) is a record of
    functions the development is parametric in.

    The file has four parts: the embedding of the class; a small executable
    host ([ToyHost]) on which the embedding runs; for each method, the
    completion of a call read off as a function of the instance's default
    options, with the proof ([call_run]) that the method computes it and
    changes no object that was in the store; and the properties of the
    class. *)

From Stdlib Require Import ZArith String Ascii List PrimFloat FloatOps SpecFloat FloatAxioms.
From Stdlib Require Uint63.
From stdpp Require Import gmap strings list fin_maps pretty.

Open Scope string_scope.

(** ** JavaScript values that occur in a [FormatOptions] object *)

Inductive JSVal :=
  | VUndefined
  | VBoolean (b : bool)
  | VNumber (x : float)
  | VString (s : string).

(** An object is its own-property map.  A key bound to [VUndefined] is
    present: a spread copies it and [Object.keys] lists it. *)
Abbreviation Obj := (gmap string JSVal).

(** [o.k]: a property read; a missing property reads as [undefined]. *)
Definition prop (o : Obj) (k : string) : JSVal := default VUndefined (o !! k).

(** [v === undefined] *)
Definition is_undefined (v : JSVal) : bool :=
  match v with VUndefined => true | _ => false end.

(** [{ ...a, ...b }]: the properties of [b] override those of [a], also when
    [b] binds a key to [undefined]. *)
Definition spread2 (a b : Obj) : Obj := b ∪ a.

(** ** Numbers *)

Definition Math_abs (x : float) : float := PrimFloat.abs x.

(** [x < y] and [x >= y] on numbers; both are false when an operand is NaN. *)
Definition js_lt (x y : float) : bool := PrimFloat.ltb x y.
Definition js_ge (x y : float) : bool := PrimFloat.leb y x.

Definition is_neg_zero (x : float) : bool :=
  PrimFloat.is_zero x && PrimFloat.get_sign x.

(** [Math.max(a, b)] and [Math.min(a, b)] on numbers: NaN if either is NaN,
    and [+0] is larger than [-0]. *)
Definition Math_max (a b : float) : float :=
  if PrimFloat.is_nan a || PrimFloat.is_nan b then nan
  else if PrimFloat.ltb a b then b
  else if PrimFloat.ltb b a then a
  else if is_neg_zero a then b else a.

Definition Math_min (a b : float) : float :=
  if PrimFloat.is_nan a || PrimFloat.is_nan b then nan
  else if PrimFloat.ltb a b then a
  else if PrimFloat.ltb b a then b
  else if is_neg_zero a then a else b.

(** [Math.pow(10, -6)], as a correctly rounding host computes it: the double
    nearest to one millionth, which is also the literal [1e-6]. *)
Definition Math_pow_10_m6 : float := 0x1.0c6f7a0b5ed8dp-20%float.

(** ToBoolean *)
Definition truthy (v : JSVal) : bool :=
  match v with
  | VUndefined => false
  | VBoolean b => b
  | VNumber x => negb (PrimFloat.is_zero x || PrimFloat.is_nan x)
  | VString s => negb (String.eqb s "")
  end.

(** [a || b] *)
Definition js_or (a b : JSVal) : JSVal := if truthy a then a else b.

(** [a ?? b]; there is no [null] among the modelled values. *)
Definition js_nullish (a b : JSVal) : JSVal := if is_undefined a then b else a.

(** The default of a destructuring pattern, [{ k = d } = o]: used when the
    property reads as [undefined]. *)
Definition default_to (v d : JSVal) : JSVal := if is_undefined v then d else v.

(** ** Completions and exceptions *)

Inductive Exn := RangeError | TypeError | ReferenceError.

Inductive Completion (A : Type) :=
  | Normal (a : A)
  | Throw (e : Exn).
Arguments Normal {A} a.
Arguments Throw {A} e.

Definition is_normal {A} (c : Completion A) : bool :=
  match c with Normal _ => true | Throw _ => false end.

(** ** The host environment *)

(** An [Intl.NumberFormat] instance: its [format] method and, where the
    prototype has one, its [formatRange] method. *)
Record NumberFormat := {
  nf_format : float -> Completion string;
  nf_formatRange : float -> float -> Completion string;
}.

(** The [Intl.NumberFormat] constructor: what [new Intl.NumberFormat(locales,
    options)] does, and whether [Intl.NumberFormat.prototype.formatRange] is a
    function. *)
Record NumberFormatClass := {
  nf_new : JSVal -> Obj -> Completion NumberFormat;
  nf_has_formatRange : bool;
}.

Inductive IntlGlobal :=
  | IntlUndeclared                       (* [typeof Intl === 'undefined'] *)
  | IntlWithoutNumberFormat              (* [Intl] exists, [Intl.NumberFormat] is falsy *)
  | IntlWith (c : NumberFormatClass).

Inductive NavigatorGlobal :=
  | NavUndeclared                        (* no binding: reading it is a ReferenceError *)
  | NavNullish                           (* [undefined] or [null] *)
  | NavWith (language : JSVal).

Record Host := {
  Intl : IntlGlobal;
  navigator : NavigatorGlobal;
  (** [Number.prototype.toFixed], [toExponential] and [toLocaleString] *)
  toFixed : float -> JSVal -> Completion string;
  toExponential : float -> JSVal -> Completion string;
  toLocaleString : float -> JSVal -> Completion string;
  (** ToNumber on a string *)
  StringToNumber : string -> float;
  (** [String.prototype.toLowerCase] *)
  toLowerCase : string -> string;
}.

(** ** The object store and the effects of a method call *)

Abbreviation loc := nat (only parsing).

Inductive LogEntry :=
  | FormattingError (e : Exn)            (* [console.error('Formatting error:', error)] *)
  | RangeFormattingError (e : Exn).      (* [console.error('Range formatting error:', error)] *)

Record State := mkState {
  heap : list Obj;                       (* the objects allocated so far *)
  console : list LogEntry;               (* what was written with [console.error] *)
  native_calls : list (JSVal * Obj);     (* the arguments of each [new Intl.NumberFormat] *)
}.

Definition obj_at (s : State) (l : loc) : Obj := default ∅ (heap s !! l).

(** A computation runs in a state and completes normally or throws; the
    state it leaves behind is kept in both cases. *)
Definition M (A : Type) : Type := State -> Completion A * State.

Definition ret {A} (a : A) : M A := fun s => (Normal a, s).

Definition bind {A B} (m : M A) (f : A -> M B) : M B :=
  fun s => match m s with
           | (Normal a, s') => f a s'
           | (Throw e, s') => (Throw e, s')
           end.

Definition throw {A} (e : Exn) : M A := fun s => (Throw e, s).

(** [try { m } catch (error) { handler error }] *)
Definition try_catch {A} (m : M A) (handler : Exn -> M A) : M A :=
  fun s => match m s with
           | (Normal a, s') => (Normal a, s')
           | (Throw e, s') => handler e s'
           end.

(** A call into the host that touches no object of the store. *)
Definition lift {A} (c : Completion A) : M A := fun s => (c, s).

Notation "x <- m ;; k" := (bind m (fun x => k))
  (at level 100, m at next level, right associativity).
Notation "m ;;; k" := (bind m (fun _ => k))
  (at level 100, right associativity).

(** A fresh object holding a copy of the properties [o]. *)
Definition alloc (o : Obj) : M loc :=
  fun s => (Normal (length (heap s)),
            mkState (heap s ++ [o]) (console s) (native_calls s)).

Definition load (l : loc) : M Obj := fun s => (Normal (obj_at s l), s).

(** [delete obj[k]] on the object at [l] *)
Definition delete_prop (l : loc) (k : string) : M unit :=
  fun s => (Normal tt,
            mkState (alter (delete k) l (heap s)) (console s) (native_calls s)).

Definition console_error (e : LogEntry) : M unit :=
  fun s => (Normal tt, mkState (heap s) (console s ++ [e]) (native_calls s)).

Definition when (b : bool) (m : M unit) : M unit := if b then m else ret tt.

Fixpoint forEach {A} (f : A -> M unit) (l : list A) : M unit :=
  match l with
  | [] => ret tt
  | x :: l' => f x ;;; forEach f l'
  end.

(** [Object.keys(o)]; the order of the keys plays no role below. *)
Definition Object_keys (o : Obj) : list string := (map_to_list o).*1.

(** [s.split(c)]: the pieces of [s] between the occurrences of the character [c]. *)
Fixpoint split (c : ascii) (s : string) : list string :=
  match s with
  | EmptyString => [EmptyString]
  | String a s' =>
      if Ascii.eqb a c then EmptyString :: split c s'
      else match split c s' with
           | [] => [String a EmptyString]
           | w :: ws => String a w :: ws
           end
  end.

(** The lookup tables of [getUnitLongForm] and [getUnitNarrowForm]. *)
Definition unit_long_forms : gmap string string :=
  list_to_map
    [ ("meter", "meters"); ("m", "meters");
      ("kilometer", "kilometers"); ("km", "kilometers");
      ("celsius", "degrees Celsius");
      ("fahrenheit", "degrees Fahrenheit");
      ("gram", "grams"); ("g", "grams");
      ("kilogram", "kilograms"); ("kg", "kilograms");
      ("liter", "liters"); ("l", "liters");
      ("milliliter", "milliliters"); ("ml", "milliliters");
      ("second", "seconds"); ("s", "seconds");
      ("minute", "minutes"); ("min", "minutes");
      ("hour", "hours"); ("h", "hours");
      ("day", "days"); ("d", "days");
      ("week", "weeks"); ("w", "weeks");
      ("month", "months"); ("mo", "months");
      ("year", "years"); ("y", "years");
      ("byte", "bytes"); ("b", "bytes");
      ("kilobyte", "kilobytes"); ("kb", "kilobytes");
      ("megabyte", "megabytes"); ("mb", "megabytes");
      ("gigabyte", "gigabytes"); ("gb", "gigabytes") ].

Definition unit_narrow_forms : gmap string string :=
  list_to_map
    [ ("meter", "m"); ("kilometer", "km");
      ("celsius", "°C"); ("fahrenheit", "°F");
      ("gram", "g"); ("kilogram", "kg");
      ("liter", "l"); ("milliliter", "ml");
      ("second", "s"); ("minute", "min"); ("hour", "h");
      ("day", "d"); ("week", "w"); ("month", "mo"); ("year", "y");
      ("byte", "b"); ("kilobyte", "kb"); ("megabyte", "mb"); ("gigabyte", "gb") ].

(** [unitMap[unit] || unit]; every entry of the tables is a non-empty string.
    Property names inherited from [Object.prototype] are not modelled. *)
Definition getUnitLongForm (unit : string) : string :=
  default unit (unit_long_forms !! unit).

Definition getUnitNarrowForm (unit : string) : string :=
  default unit (unit_narrow_forms !! unit).

(** ** The class *)

(** An instance is the reference its [defaultOptions] field holds: the field
    is assigned in the constructor and by no method, and the object it refers
    to lives in the store. *)
Record IntlFormatter := { defaultOptions : loc }.

Section IntlFormatter.

Variable h : Host.

(** ToNumber *)
Definition ToNumber (v : JSVal) : float :=
  match v with
  | VUndefined => nan
  | VBoolean b => if b then 1%float else 0%float
  | VNumber x => x
  | VString s => StringToNumber h s
  end.

(** [navigator?.language] *)
Definition navigator_language : M JSVal :=
  match navigator h with
  | NavUndeclared => throw ReferenceError
  | NavNullish => ret VUndefined
  | NavWith language => ret language
  end.

(** The object literal of the constructor, before [...options]. *)
Definition library_defaults (locale : JSVal) : Obj :=
  list_to_map
    [ ("locale", locale);
      ("style", VString "decimal");
      ("notation", VString "standard");
      ("minimumFractionDigits", VNumber 0);
      ("maximumFractionDigits", VNumber 2);
      ("minimumSignificantDigits", VUndefined);
      ("maximumSignificantDigits", VUndefined);
      ("useGrouping", VBoolean true);
      ("roundingMode", VString "halfEven");
      ("currency", VUndefined);
      ("currencyDisplay", VString "symbol");
      ("currencySign", VUndefined);
      ("unit", VUndefined);
      ("unitDisplay", VString "short");
      ("signDisplay", VString "auto");
      ("compactDisplay", VString "short") ].

(** [constructor(options = {})]; a call without argument passes [∅]. *)
Definition constructor (options : Obj) : M IntlFormatter :=
  language <- navigator_language ;;
  l <- alloc (spread2 (library_defaults (js_or language (VString "en-US"))) options) ;;
  ret {| defaultOptions := l |}.

(** [typeof Intl === 'undefined' || !Intl.NumberFormat] *)
Definition Intl_missing : bool :=
  match Intl h with IntlWith _ => false | _ => true end.

(** [new Intl.NumberFormat(locales, options)] *)
Definition new_NumberFormat (locales : JSVal) (options : Obj) : M NumberFormat :=
  match Intl h with
  | IntlUndeclared => throw ReferenceError
  | IntlWithoutNumberFormat => throw TypeError
  | IntlWith c =>
      fun s => (nf_new c locales options,
                mkState (heap s) (console s) (native_calls s ++ [(locales, options)]))
  end.

(** The option objects the four construction probes pass. *)
Definition notation_probe : Obj := {[ "notation" := VString "compact" ]}.
Definition roundingMode_probe : Obj := {[ "roundingMode" := VString "halfEven" ]}.
Definition unit_probe : Obj :=
  <[ "style" := VString "unit" ]> {[ "unit" := VString "meter" ]}.
Definition signDisplay_probe : Obj := {[ "signDisplay" := VString "always" ]}.

Definition supportsNotation : M bool :=
  try_catch
    (_ <- new_NumberFormat (VString "en") notation_probe ;; ret true)
    (fun _ => ret false).

Definition supportsRoundingMode : M bool :=
  try_catch
    (_ <- new_NumberFormat (VString "en") roundingMode_probe ;; ret true)
    (fun _ => ret false).

Definition supportsUnitFormat : M bool :=
  try_catch
    (_ <- new_NumberFormat (VString "en") unit_probe ;; ret true)
    (fun _ => ret false).

Definition supportsSignDisplay : M bool :=
  try_catch
    (_ <- new_NumberFormat (VString "en") signDisplay_probe ;; ret true)
    (fun _ => ret false).

(** [typeof Intl !== 'undefined' && Intl.NumberFormat &&
     typeof Intl.NumberFormat.prototype.formatRange === 'function'],
    as the condition of an [if] reads it. *)
Definition supportsFormatRange : M bool :=
  ret (match Intl h with IntlWith c => nf_has_formatRange c | _ => false end).

(** [const { locale = this.defaultOptions.locale, ...formatOptions } =
     { ...this.defaultOptions, ...options }] *)
Definition resolve_options (this : IntlFormatter) (options : Obj) : M (JSVal * Obj) :=
  d <- load (defaultOptions this) ;;
  let merged := spread2 d options in
  locale <- (if is_undefined (prop merged "locale")
             then d' <- load (defaultOptions this) ;; ret (prop d' "locale")
             else ret (prop merged "locale")) ;;
  ret (locale, delete "locale" merged).

(** [Object.keys(safe).forEach(key => { if (safe[key] === undefined) delete safe[key] })] *)
Definition delete_undefined (safe : loc) : M unit :=
  o <- load safe ;;
  forEach (fun key =>
             o' <- load safe ;;
             when (is_undefined (prop o' key)) (delete_prop safe key))
          (Object_keys o).

Definition format (this : IntlFormatter) (value : float) (options : Obj) : M string :=
  try_catch
    (resolved <- resolve_options this options ;;
     let (locale, formatOptions) := resolved in
     if js_lt (Math_abs value) Math_pow_10_m6
        && truthy (prop options "minimumFractionDigits")
     then lift (toFixed h value (prop options "minimumFractionDigits"))
     else if Intl_missing
     then lift (toLocaleString h value locale)
     else
       safeFormatOptions <- alloc formatOptions ;;
       sn <- supportsNotation ;;
       when (negb sn)
         (delete_prop safeFormatOptions "notation" ;;;
          delete_prop safeFormatOptions "compactDisplay") ;;;
       sr <- supportsRoundingMode ;;
       when (negb sr) (delete_prop safeFormatOptions "roundingMode") ;;;
       ss <- supportsSignDisplay ;;
       when (negb ss) (delete_prop safeFormatOptions "signDisplay") ;;;
       su <- supportsUnitFormat ;;
       when (negb su)
         (delete_prop safeFormatOptions "unit" ;;;
          delete_prop safeFormatOptions "unitDisplay") ;;;
       delete_undefined safeFormatOptions ;;;
       o <- load safeFormatOptions ;;
       formatter <- new_NumberFormat locale o ;;
       lift (nf_format formatter value))
    (fun error =>
       console_error (FormattingError error) ;;;
       d <- load (defaultOptions this) ;;
       lift (toLocaleString h value (prop d "locale"))).

Definition formatCurrency (this : IntlFormatter) (value : float) (options : Obj) : M string :=
  format this value
    (<[ "maximumFractionDigits" :=
          js_nullish (prop options "maximumFractionDigits") (VNumber 2) ]>
       (<[ "minimumFractionDigits" :=
             js_nullish (prop options "minimumFractionDigits") (VNumber 2) ]>
          (<[ "style" := VString "currency" ]> options))).

Definition formatPercent (this : IntlFormatter) (value : float) (options : Obj) : M string :=
  format this value
    (<[ "maximumFractionDigits" :=
          js_nullish (prop options "maximumFractionDigits") (VNumber 1) ]>
       (<[ "minimumFractionDigits" :=
             js_nullish (prop options "minimumFractionDigits") (VNumber 0) ]>
          (<[ "style" := VString "percent" ]> options))).

(** [unitMap[unitDisplay]] inside a template literal, for the object literal
    [{ short, long, narrow }]: a key the literal lacks reads as [undefined]. *)
Definition unit_display_text (unit : string) (unitDisplay : JSVal) : string :=
  let unitMap : gmap string string :=
    <[ "narrow" := getUnitNarrowForm unit ]>
      (<[ "long" := getUnitLongForm unit ]> {[ "short" := unit ]}) in
  match unitDisplay with
  | VString k => default "undefined" (unitMap !! k)
  | _ => "undefined"
  end.

Definition formatUnit (this : IntlFormatter) (value : float) (unit : string)
    (options : Obj) : M string :=
  su <- supportsUnitFormat ;;
  if negb su then
    formattedValue <- format this value options ;;
    let unitDisplay := js_or (prop options "unitDisplay") (VString "short") in
    ret (formattedValue ++ " " ++ unit_display_text unit unitDisplay)
  else
    format this value
      (<[ "unitDisplay" := js_or (prop options "unitDisplay") (VString "short") ]>
         (<[ "unit" := VString unit ]>
            (<[ "style" := VString "unit" ]> options))).

(** The callback is a function from strings to strings that may throw. *)
Definition formatCustom (this : IntlFormatter) (value : float)
    (formatFn : string -> Completion string) (options : Obj) : M string :=
  formattedValue <- format this value options ;;
  lift (formatFn formattedValue).

(** [getLocaleSeparator(locale)]; a value without a [toLowerCase] method
    makes the call a TypeError. *)
Definition getLocaleSeparator (locale : JSVal) : M string :=
  match locale with
  | VString s =>
      let lang := hd "" (split "-" (toLowerCase h s)) in
      ret (if String.eqb lang "zh" || String.eqb lang "ja" || String.eqb lang "ko"
           then "～"
           else if String.eqb lang "ar" || String.eqb lang "fa" || String.eqb lang "he"
           then "—"
           else if String.eqb lang "th"
           then " ถึง "
           else "–")
  | _ => throw TypeError
  end.

Definition formatRange (this : IntlFormatter) (start end_ : float) (options : Obj)
    : M string :=
  try_catch
    (resolved <- resolve_options this options ;;
     let (locale, formatOptions) := resolved in
     if Intl_missing
     then
       a <- lift (toLocaleString h start locale) ;;
       b <- lift (toLocaleString h end_ locale) ;;
       ret (a ++ " - " ++ b)
     else
       safeFormatOptions <- alloc formatOptions ;;
       sn <- supportsNotation ;;
       when (negb sn)
         (delete_prop safeFormatOptions "notation" ;;;
          delete_prop safeFormatOptions "compactDisplay") ;;;
       sr <- supportsRoundingMode ;;
       when (negb sr) (delete_prop safeFormatOptions "roundingMode") ;;;
       ss <- supportsSignDisplay ;;
       when (negb ss) (delete_prop safeFormatOptions "signDisplay") ;;;
       delete_undefined safeFormatOptions ;;;
       o <- load safeFormatOptions ;;
       formatter <- new_NumberFormat locale o ;;
       sf <- supportsFormatRange ;;
       if sf then lift (nf_formatRange formatter start end_)
       else
         separator <- getLocaleSeparator (js_or locale (VString "en")) ;;
         a <- lift (nf_format formatter start) ;;
         b <- lift (nf_format formatter end_) ;;
         ret (a ++ separator ++ b))
    (fun error =>
       console_error (RangeFormattingError error) ;;;
       a <- format this start ∅ ;;
       b <- format this end_ ∅ ;;
       ret (a ++ " - " ++ b)).

Definition formatCompact (this : IntlFormatter) (value : float) (options : Obj) : M string :=
  sn <- supportsNotation ;;
  if negb sn then
    let absValue := Math_abs value in
    let sign := if js_lt value 0 then "-" else "" in
    let minimumFractionDigits := default_to (prop options "minimumFractionDigits") (VNumber 1) in
    let maximumFractionDigits := default_to (prop options "maximumFractionDigits") (VNumber 1) in
    let format_ (val precision : float) : M string :=
      lift (toFixed h val
              (VNumber (Math_min (Math_max (ToNumber minimumFractionDigits) precision)
                                 (ToNumber maximumFractionDigits)))) in
    if js_ge absValue 1e12 then
      r <- format_ (absValue / 1e12)%float 1%float ;; ret (sign ++ r ++ "T")
    else if js_ge absValue 1e9 then
      r <- format_ (absValue / 1e9)%float 1%float ;; ret (sign ++ r ++ "B")
    else if js_ge absValue 1e6 then
      r <- format_ (absValue / 1e6)%float 1%float ;; ret (sign ++ r ++ "M")
    else if js_ge absValue 1e3 then
      r <- format_ (absValue / 1e3)%float 1%float ;; ret (sign ++ r ++ "K")
    else format this value options
  else
    format this value
      (<[ "compactDisplay" := js_or (prop options "compactDisplay") (VString "short") ]>
         (<[ "notation" := VString "compact" ]> options)).

Definition formatScientific (this : IntlFormatter) (value : float) (options : Obj)
    : M string :=
  sn <- supportsNotation ;;
  if negb sn then
    let minimumSignificantDigits := default_to (prop options "minimumSignificantDigits") (VNumber 3) in
    let maximumSignificantDigits := default_to (prop options "maximumSignificantDigits") (VNumber 5) in
    let precision :=
      Math_min (Math_max (ToNumber minimumSignificantDigits - 1) 0)
               (ToNumber maximumSignificantDigits - 1) in
    lift (toExponential h value (VNumber precision))
  else
    format this value
      (<[ "maximumSignificantDigits" :=
            js_nullish (prop options "maximumSignificantDigits") (VNumber 5) ]>
         (<[ "minimumSignificantDigits" :=
               js_nullish (prop options "minimumSignificantDigits") (VNumber 3) ]>
            (<[ "notation" := VString "scientific" ]> options))).

(** A call of one of the public formatting methods. *)
Inductive Request :=
  | Format (value : float) (options : Obj)
  | FormatCurrency (value : float) (options : Obj)
  | FormatPercent (value : float) (options : Obj)
  | FormatUnit (value : float) (unit : string) (options : Obj)
  | FormatCustom (value : float) (formatFn : string -> Completion string) (options : Obj)
  | FormatRange (start end_ : float) (options : Obj)
  | FormatCompact (value : float) (options : Obj)
  | FormatScientific (value : float) (options : Obj).

Definition call (this : IntlFormatter) (r : Request) : M string :=
  match r with
  | Format value options => format this value options
  | FormatCurrency value options => formatCurrency this value options
  | FormatPercent value options => formatPercent this value options
  | FormatUnit value unit options => formatUnit this value unit options
  | FormatCustom value formatFn options => formatCustom this value formatFn options
  | FormatRange start end_ options => formatRange this start end_ options
  | FormatCompact value options => formatCompact this value options
  | FormatScientific value options => formatScientific this value options
  end.

(** A sequence of calls on one instance, each run in the state the previous
    one left; the results are returned in order. *)
Fixpoint calls (this : IntlFormatter) (rs : list Request) (s : State)
    : list (Completion string) * State :=
  match rs with
  | [] => ([], s)
  | r :: rs' =>
      let (c, s') := call this r s in
      let (cs, s'') := calls this rs' s' in
      (c :: cs, s'')
  end.

End IntlFormatter.

(** ** An executable host

    A small host on which the model runs: it follows ECMAScript in which
    calls throw (a [RangeError] for a malformed language tag or for a digit
    count outside 0..100, a [TypeError] for a currency style without
    currency) and renders every finite number in plain positional notation,
    without grouping and without locale data.  Its [Intl.NumberFormat]
    rejects the options of each capability it is configured to lack. *)

Module ToyHost.

Record Capabilities := {
  cap_notation : bool;
  cap_roundingMode : bool;
  cap_signDisplay : bool;
  cap_unit : bool;
  cap_formatRange : bool;
}.

Definition modern : Capabilities :=
  {| cap_notation := true; cap_roundingMode := true; cap_signDisplay := true;
     cap_unit := true; cap_formatRange := true |}.

Definition no_notation : Capabilities :=
  {| cap_notation := false; cap_roundingMode := true; cap_signDisplay := true;
     cap_unit := true; cap_formatRange := true |}.

Definition no_unit : Capabilities :=
  {| cap_notation := true; cap_roundingMode := true; cap_signDisplay := true;
     cap_unit := false; cap_formatRange := true |}.

Definition no_formatRange : Capabilities :=
  {| cap_notation := true; cap_roundingMode := true; cap_signDisplay := true;
     cap_unit := true; cap_formatRange := false |}.

(** The integer nearest to [m * 2^e * 10^f], the larger one on a tie. *)
Definition scaled_round (m : positive) (e : Z) (f : Z) : Z :=
  let num := (Z.pos m * 2 ^ Z.max e 0 * 10 ^ Z.max f 0)%Z in
  let den := (2 ^ Z.max (- e) 0 * 10 ^ Z.max (- f) 0)%Z in
  ((2 * num + den) / (2 * den))%Z.

Fixpoint zeros (n : nat) : string :=
  match n with O => "" | S n' => String "0" (zeros n') end.

(** The decimal digits of [n] with a point before the last [f] of them. *)
Definition fixed_digits (n : Z) (f : nat) : string :=
  let d := pretty n in
  let d := zeros (S f - String.length d) ++ d in
  let k := (String.length d - f)%nat in
  if Nat.eqb f 0 then d
  else substring 0 k d ++ "." ++ substring k f d.

(** ToIntegerOrInfinity of a number, where it is finite. *)
Definition to_integer (x : float) : option Z :=
  match Prim2SF x with
  | S754_nan | S754_zero _ => Some 0%Z
  | S754_infinity _ => None
  | S754_finite s m e =>
      let a := if (0 <=? e)%Z then (Z.pos m * 2 ^ e)%Z else (Z.pos m / 2 ^ (- e))%Z in
      Some (if s then (- a)%Z else a)
  end.

(** A string of decimal digits as a number, the empty string as 0, and
    NaN for anything else (a fragment of StringToNumber). *)
Definition is_digit (a : ascii) : bool :=
  let n := nat_of_ascii a in (48 <=? n)%nat && (n <=? 57)%nat.

Fixpoint digits_value (acc : Z) (s : string) : option Z :=
  match s with
  | EmptyString => Some acc
  | String a s' =>
      if is_digit a
      then digits_value (10 * acc + Z.of_nat (nat_of_ascii a - 48))%Z s'
      else None
  end.

Definition toy_StringToNumber (s : string) : float :=
  match digits_value 0 s with
  | Some z => if (z <? 2 ^ 53)%Z then PrimFloat.of_uint63 (Uint63.of_Z z) else nan
  | None => nan
  end.

Definition toy_ToNumber (v : JSVal) : float :=
  match v with
  | VUndefined => nan
  | VBoolean b => if b then 1%float else 0%float
  | VNumber x => x
  | VString s => toy_StringToNumber s
  end.

(** The digit count of [toFixed] and [toExponential]: an integer in 0..100. *)
Definition digit_count (v : JSVal) : option nat :=
  match to_integer (toy_ToNumber v) with
  | Some f => if (0 <=? f)%Z && (f <=? 100)%Z then Some (Z.to_nat f) else None
  | None => None
  end.

Definition render_fixed (x : float) (f : nat) : string :=
  match Prim2SF x with
  | S754_nan => "NaN"
  | S754_infinity s => if s then "-Infinity" else "Infinity"
  | S754_zero _ => fixed_digits 0 f
  | S754_finite s m e =>
      (if s then "-" else "") ++ fixed_digits (scaled_round m e (Z.of_nat f)) f
  end.

Definition toy_toFixed (x : float) (fractionDigits : JSVal) : Completion string :=
  match digit_count fractionDigits with
  | Some f => Normal (render_fixed x f)
  | None => Throw RangeError
  end.

(** The decimal exponent of [m * 2^e]: the [k] with [10^k <= m * 2^e < 10^(k+1)]. *)
Definition decimal_exponent (m : positive) (e : Z) : Z :=
  let below (k : Z) : bool :=        (* 10^k <= m * 2^e *)
    let l := (if (0 <=? k) then 10 ^ k else 1)%Z in
    let r := (if (0 <=? k) then 1 else 10 ^ (- k))%Z in
    if (0 <=? e)%Z then (l <=? Z.pos m * 2 ^ e * r)%Z
    else (l * 2 ^ (- e) <=? Z.pos m * r)%Z in
  let k0 := (((Z.log2 (Z.pos m) + e) * 30103) / 100000 - 1)%Z in
  let k1 := if below (k0 + 1)%Z then (k0 + 1)%Z else k0 in
  let k2 := if below (k1 + 1)%Z then (k1 + 1)%Z else k1 in
  if below (k2 + 1)%Z then (k2 + 1)%Z else k2.

Definition exponent_text (k : Z) : string :=
  (if (k <? 0)%Z then "e-" else "e+") ++ pretty (Z.abs k).

Definition mantissa_text (d : string) (f : nat) : string :=
  if Nat.eqb f 0 then d else substring 0 1 d ++ "." ++ substring 1 f d.

Definition render_exponential (x : float) (f : nat) : string :=
  match Prim2SF x with
  | S754_nan => "NaN"
  | S754_infinity s => if s then "-Infinity" else "Infinity"
  | S754_zero _ => mantissa_text (zeros (S f)) f ++ "e+0"
  | S754_finite s m e =>
      let k := decimal_exponent m e in
      let n := scaled_round m e (Z.of_nat f - k) in
      let '(n, k) := if (10 ^ Z.of_nat (S f) <=? n)%Z then ((n / 10)%Z, (k + 1)%Z) else (n, k) in
      (if s then "-" else "") ++ mantissa_text (pretty n) f ++ exponent_text k
  end.

Definition is_finite (x : float) : bool :=
  match Prim2SF x with S754_nan | S754_infinity _ => false | _ => true end.

Definition toy_toExponential (x : float) (fractionDigits : JSVal) : Completion string :=
  if is_finite x then
    match digit_count fractionDigits with
    | Some f => Normal (render_exponential x f)
    | None => Throw RangeError
    end
  else Normal (render_exponential x 0).

(** A necessary condition for a well-formed language tag: a non-empty
    sequence of ASCII letters, digits and hyphens. *)
Definition is_tag_char (a : ascii) : bool :=
  let n := nat_of_ascii a in
  ((48 <=? n) && (n <=? 57) || (65 <=? n) && (n <=? 90)
   || (97 <=? n) && (n <=? 122) || (n =? 45))%nat.

Fixpoint all_chars (p : ascii -> bool) (s : string) : bool :=
  match s with
  | EmptyString => true
  | String a s' => p a && all_chars p s'
  end.

(** The [locales] argument of [Intl.NumberFormat] and [toLocaleString]. *)
Definition check_locales (locales : JSVal) : Completion unit :=
  match locales with
  | VUndefined => Normal tt
  | VString tag =>
      if negb (String.eqb tag "") && all_chars is_tag_char tag
      then Normal tt else Throw RangeError
  | _ => Throw TypeError
  end.

Fixpoint drop_trailing_zeros (keep : nat) (rev_digits : list ascii) (n : nat)
    : list ascii :=
  match n, rev_digits with
  | S n', a :: rest =>
      if Ascii.eqb a "0" && (keep <? n)%nat
      then drop_trailing_zeros keep rest n' else rev_digits
  | _, _ => rev_digits
  end.

(** [x] with at most [hi] and at least [lo] fraction digits. *)
Definition render_decimal (x : float) (lo hi : nat) : string :=
  if is_finite x then
    let d := rev (list_ascii_of_string (render_fixed x hi)) in
    let d := drop_trailing_zeros lo d hi in
    let d := match d with a :: rest => if Ascii.eqb a "." then rest else d | [] => d end in
    string_of_list_ascii (rev d)
  else render_fixed x 0.

Definition toy_toLocaleString (x : float) (locales : JSVal) : Completion string :=
  match check_locales locales with
  | Normal _ => Normal (render_decimal x 0 3)
  | Throw e => Throw e
  end.

Definition defined (o : Obj) (k : string) : bool := negb (is_undefined (prop o k)).

(** The options the configured capabilities do not cover. *)
Definition unsupported (caps : Capabilities) (o : Obj) : bool :=
  negb (cap_notation caps) && (defined o "notation" || defined o "compactDisplay")
  || negb (cap_roundingMode caps) && defined o "roundingMode"
  || negb (cap_signDisplay caps) && defined o "signDisplay"
  || negb (cap_unit caps) && (defined o "unit" || defined o "unitDisplay").

Definition fraction_digits (o : Obj) (k : string) (d : nat) : option nat :=
  if defined o k then digit_count (prop o k) else Some d.

Definition toy_formatter (lo hi : nat) : NumberFormat :=
  {| nf_format := fun x => Normal (render_decimal x lo hi);
     nf_formatRange := fun a b =>
       if PrimFloat.is_nan a || PrimFloat.is_nan b then Throw RangeError
       else Normal (render_decimal a lo hi ++ "–" ++ render_decimal b lo hi) |}.

Definition toy_new (caps : Capabilities) (locales : JSVal) (o : Obj)
    : Completion NumberFormat :=
  match check_locales locales with
  | Throw e => Throw e
  | Normal _ =>
      if unsupported caps o then Throw RangeError
      else if match prop o "style" with VString "currency" => negb (defined o "currency")
              | _ => false end
      then Throw TypeError
      else match fraction_digits o "minimumFractionDigits" 0,
                 fraction_digits o "maximumFractionDigits" 3 with
           | Some lo, Some hi =>
               if (lo <=? hi)%nat then Normal (toy_formatter lo hi) else Throw RangeError
           | _, _ => Throw RangeError
           end
  end.

Definition lower (a : ascii) : ascii :=
  let n := nat_of_ascii a in
  if ((65 <=? n) && (n <=? 90))%nat then ascii_of_nat (n + 32) else a.

Fixpoint toy_toLowerCase (s : string) : string :=
  match s with
  | EmptyString => EmptyString
  | String a s' => String (lower a) (toy_toLowerCase s')
  end.

Definition host (caps : Capabilities) : Host :=
  {| Intl := IntlWith {| nf_new := toy_new caps;
                         nf_has_formatRange := cap_formatRange caps |};
     navigator := NavWith (VString "en-US");
     toFixed := toy_toFixed;
     toExponential := toy_toExponential;
     toLocaleString := toy_toLocaleString;
     StringToNumber := toy_StringToNumber;
     toLowerCase := toy_toLowerCase |}.

(** The state a program starts in. *)
Definition init : State := mkState [] [] [].

(** [new IntlFormatter(ctor).method(...)], from the initial state: the
    completion and the final state. *)
Definition exec (caps : Capabilities) (ctor : Obj) (r : Request)
    : Completion string * State :=
  match constructor (host caps) ctor init with
  | (Normal this, s) => call (host caps) this r s
  | (Throw e, s) => (Throw e, s)
  end.

Definition run (caps : Capabilities) (ctor : Obj) (r : Request) : Completion string :=
  fst (exec caps ctor r).

(** The locale and the options a call with the per-call options [per_call]
    resolves, on [new IntlFormatter(ctor)]. *)
Definition resolved (caps : Capabilities) (ctor per_call : Obj)
    : Completion (JSVal * Obj) :=
  match constructor (host caps) ctor init with
  | (Normal this, s) => fst (resolve_options this per_call s)
  | (Throw e, _) => Throw e
  end.

Definition resolved_locale_of (c : Completion (JSVal * Obj)) : JSVal :=
  match c with Normal (locale, _) => locale | Throw _ => VUndefined end.

Definition resolved_option_of (c : Completion (JSVal * Obj)) (k : string) : JSVal :=
  match c with Normal (_, formatOptions) => prop formatOptions k | Throw _ => VUndefined end.

End ToyHost.

(** The host [h] with another [Number.prototype.toFixed]. *)
Definition with_toFixed (h : Host) (f : float -> JSVal -> Completion string) : Host :=
  {| Intl := Intl h;
     navigator := navigator h;
     toFixed := f;
     toExponential := toExponential h;
     toLocaleString := toLocaleString h;
     StringToNumber := StringToNumber h;
     toLowerCase := toLowerCase h |}.

(** ** What a call returns, as a function of the instance's default options

    The functions below read off, for each method, the completion of a call
    as a function of the host, of the property map [D] of
    [this.defaultOptions] and of the arguments.  [call_run] proves that the
    methods above compute exactly these values. *)

Section Reading.

Variable h : Host.

Definition cbind {A B} (c : Completion A) (f : A -> Completion B) : Completion B :=
  match c with
  | Normal a => f a
  | Throw e => Throw e
  end.

(** The completion of [new Intl.NumberFormat(locales, options)]. *)
Definition constructs (locales : JSVal) (options : Obj) : Completion NumberFormat :=
  match Intl h with
  | IntlUndeclared => Throw ReferenceError
  | IntlWithoutNumberFormat => Throw TypeError
  | IntlWith c => nf_new c locales options
  end.

(** The state after [new Intl.NumberFormat(locales, options)]. *)
Definition recorded (s : State) (locales : JSVal) (options : Obj) : State :=
  match Intl h with
  | IntlWith _ => mkState (heap s) (console s) (native_calls s ++ [(locales, options)])
  | _ => s
  end.

(** Whether constructing a formatter for locale ['en'] with the options of a
    probe completes normally. *)
Definition supported (probe_options : Obj) : bool :=
  is_normal (constructs (VString "en") probe_options).

Definition has_formatRange : bool :=
  match Intl h with IntlWith c => nf_has_formatRange c | _ => false end.

Definition delete_if_undefined (o : Obj) (key : string) : Obj :=
  if is_undefined (prop o key) then delete key o else o.

(** The object after the clean-up loop over its keys. *)
Definition without_undefined (o : Obj) : Obj :=
  foldl delete_if_undefined o (Object_keys o).

(** The object [format] hands to the native constructor. *)
Definition format_safe_options (formatOptions : Obj) : Obj :=
  let o1 := if supported notation_probe then formatOptions
            else delete "compactDisplay" (delete "notation" formatOptions) in
  let o2 := if supported roundingMode_probe then o1 else delete "roundingMode" o1 in
  let o3 := if supported signDisplay_probe then o2 else delete "signDisplay" o2 in
  let o4 := if supported unit_probe then o3
            else delete "unitDisplay" (delete "unit" o3) in
  without_undefined o4.

(** The object [formatRange] hands to the native constructor. *)
Definition formatRange_safe_options (formatOptions : Obj) : Obj :=
  let o1 := if supported notation_probe then formatOptions
            else delete "compactDisplay" (delete "notation" formatOptions) in
  let o2 := if supported roundingMode_probe then o1 else delete "roundingMode" o1 in
  let o3 := if supported signDisplay_probe then o2 else delete "signDisplay" o2 in
  without_undefined o3.

(** What the clean-up loop leaves of a property. *)
Definition cleaned (x : option JSVal) : option JSVal :=
  match x with
  | Some VUndefined => None
  | _ => x
  end.

Definition resolved_locale (D options : Obj) : JSVal :=
  if is_undefined (prop (spread2 D options) "locale") then prop D "locale"
  else prop (spread2 D options) "locale".

Definition resolved_formatOptions (D options : Obj) : Obj :=
  delete "locale" (spread2 D options).

(** The [try] block of [format]. *)
Definition format_try (D : Obj) (value : float) (options : Obj) : Completion string :=
  if js_lt (Math_abs value) Math_pow_10_m6
     && truthy (prop options "minimumFractionDigits")
  then toFixed h value (prop options "minimumFractionDigits")
  else if Intl_missing h
  then toLocaleString h value (resolved_locale D options)
  else
    cbind (constructs (resolved_locale D options)
             (format_safe_options (resolved_formatOptions D options)))
          (fun formatter => nf_format formatter value).

(** The native constructions of a call of [format], in order: the four
    probes, then the formatter. *)
Definition format_native_calls (D : Obj) (value : float) (options : Obj)
    : list (JSVal * Obj) :=
  if js_lt (Math_abs value) Math_pow_10_m6
     && truthy (prop options "minimumFractionDigits")
  then []
  else if Intl_missing h then []
  else [ (VString "en", notation_probe);
         (VString "en", roundingMode_probe);
         (VString "en", signDisplay_probe);
         (VString "en", unit_probe);
         (resolved_locale D options,
          format_safe_options (resolved_formatOptions D options)) ].

Definition format_result (D : Obj) (value : float) (options : Obj) : Completion string :=
  match format_try D value options with
  | Normal r => Normal r
  | Throw _ => toLocaleString h value (prop D "locale")
  end.

Definition locale_separator (locale : JSVal) : Completion string :=
  match locale with
  | VString s =>
      let lang := hd "" (split "-" (toLowerCase h s)) in
      Normal (if String.eqb lang "zh" || String.eqb lang "ja" || String.eqb lang "ko"
              then "～"
              else if String.eqb lang "ar" || String.eqb lang "fa" || String.eqb lang "he"
              then "—"
              else if String.eqb lang "th"
              then " ถึง "
              else "–")
  | _ => Throw TypeError
  end.

(** The [try] block of [formatRange]. *)
Definition formatRange_try (D : Obj) (start end_ : float) (options : Obj)
    : Completion string :=
  let locale := resolved_locale D options in
  if Intl_missing h
  then
    cbind (toLocaleString h start locale) (fun a =>
    cbind (toLocaleString h end_ locale) (fun b =>
    Normal (a ++ " - " ++ b)))
  else
    cbind (constructs locale (formatRange_safe_options (resolved_formatOptions D options)))
      (fun formatter =>
         if has_formatRange then nf_formatRange formatter start end_
         else
           cbind (locale_separator (js_or locale (VString "en"))) (fun separator =>
           cbind (nf_format formatter start) (fun a =>
           cbind (nf_format formatter end_) (fun b =>
           Normal (a ++ separator ++ b))))).

(** The native constructions of the [try] block of [formatRange], in order:
    three probes, then the formatter. *)
Definition formatRange_native_calls (D options : Obj) : list (JSVal * Obj) :=
  if Intl_missing h then []
  else [ (VString "en", notation_probe);
         (VString "en", roundingMode_probe);
         (VString "en", signDisplay_probe);
         (resolved_locale D options,
          formatRange_safe_options (resolved_formatOptions D options)) ].

Definition formatRange_result (D : Obj) (start end_ : float) (options : Obj)
    : Completion string :=
  match formatRange_try D start end_ options with
  | Normal r => Normal r
  | Throw _ =>
      cbind (format_result D start ∅) (fun a =>
      cbind (format_result D end_ ∅) (fun b =>
      Normal (a ++ " - " ++ b)))
  end.

(** The digit count the fallback of [formatCompact] passes to [toFixed]. *)
Definition compact_precision (options : Obj) : float :=
  Math_min
    (Math_max (ToNumber h (default_to (prop options "minimumFractionDigits") (VNumber 1))) 1)
    (ToNumber h (default_to (prop options "maximumFractionDigits") (VNumber 1))).

(** The ['-'] prefix of the fallback of [formatCompact]. *)
Definition compact_sign (value : float) : string :=
  if js_lt value 0 then "-" else "".

(** The digit count the fallback of [formatScientific] passes to [toExponential]. *)
Definition scientific_precision (options : Obj) : float :=
  Math_min
    (Math_max
       (ToNumber h (default_to (prop options "minimumSignificantDigits") (VNumber 3)) - 1) 0)
    (ToNumber h (default_to (prop options "maximumSignificantDigits") (VNumber 5)) - 1).

Definition compact_scaled (value : float) (options : Obj) (scale : float)
    (suffix : string) : Completion string :=
  cbind (toFixed h (Math_abs value / scale) (VNumber (compact_precision options)))
        (fun r => Normal (compact_sign value ++ r ++ suffix)).

Definition call_result (D : Obj) (r : Request) : Completion string :=
  match r with
  | Format value options => format_result D value options
  | FormatCurrency value options =>
      format_result D value
        (<[ "maximumFractionDigits" :=
              js_nullish (prop options "maximumFractionDigits") (VNumber 2) ]>
           (<[ "minimumFractionDigits" :=
                 js_nullish (prop options "minimumFractionDigits") (VNumber 2) ]>
              (<[ "style" := VString "currency" ]> options)))
  | FormatPercent value options =>
      format_result D value
        (<[ "maximumFractionDigits" :=
              js_nullish (prop options "maximumFractionDigits") (VNumber 1) ]>
           (<[ "minimumFractionDigits" :=
                 js_nullish (prop options "minimumFractionDigits") (VNumber 0) ]>
              (<[ "style" := VString "percent" ]> options)))
  | FormatUnit value unit options =>
      if supported unit_probe then
        format_result D value
          (<[ "unitDisplay" := js_or (prop options "unitDisplay") (VString "short") ]>
             (<[ "unit" := VString unit ]>
                (<[ "style" := VString "unit" ]> options)))
      else
        cbind (format_result D value options) (fun formattedValue =>
        Normal (formattedValue ++ " "
                ++ unit_display_text unit
                     (js_or (prop options "unitDisplay") (VString "short"))))
  | FormatCustom value formatFn options =>
      cbind (format_result D value options) formatFn
  | FormatRange start end_ options => formatRange_result D start end_ options
  | FormatCompact value options =>
      if supported notation_probe then
        format_result D value
          (<[ "compactDisplay" := js_or (prop options "compactDisplay") (VString "short") ]>
             (<[ "notation" := VString "compact" ]> options))
      else if js_ge (Math_abs value) 1e12 then compact_scaled value options 1e12 "T"
      else if js_ge (Math_abs value) 1e9 then compact_scaled value options 1e9 "B"
      else if js_ge (Math_abs value) 1e6 then compact_scaled value options 1e6 "M"
      else if js_ge (Math_abs value) 1e3 then compact_scaled value options 1e3 "K"
      else format_result D value options
  | FormatScientific value options =>
      if supported notation_probe then
        format_result D value
          (<[ "maximumSignificantDigits" :=
                js_nullish (prop options "maximumSignificantDigits") (VNumber 5) ]>
             (<[ "minimumSignificantDigits" :=
                   js_nullish (prop options "minimumSignificantDigits") (VNumber 3) ]>
                (<[ "notation" := VString "scientific" ]> options)))
      else toExponential h value (VNumber (scientific_precision options))
  end.

(** The state grew: objects were added to the store, lines to the console
    and calls to the record of native constructions; nothing that was there
    changed. *)
Definition grows (s s' : State) : Prop :=
  heap s `prefix_of` heap s'
  /\ console s `prefix_of` console s'
  /\ native_calls s `prefix_of` native_calls s'.

(** An instance whose [defaultOptions] object is in the store. *)
Definition valid (this : IntlFormatter) (s : State) : Prop :=
  defaultOptions this < length (heap s).

End Reading.

(** ** Vocabulary of the statements *)

(** [sub] occurs in [s]. *)
Fixpoint occurs (sub s : string) : bool :=
  String.prefix sub s
  || match s with
     | EmptyString => false
     | String _ s' => occurs sub s'
     end.

(** Some recorded native construction was given a defined option [k]. *)
Definition passes_key (k : string) (calls : list (JSVal * Obj)) : bool :=
  existsb (fun c => negb (is_undefined (prop (snd c) k))) calls.

(** [navigator?.language || 'en-US'], where reading [navigator] does not throw. *)
Definition default_locale (h : Host) : JSVal :=
  match navigator h with
  | NavWith language => js_or language (VString "en-US")
  | _ => VString "en-US"
  end.

(** Two readings of "the caller supplied option [k]": the object has the
    property, or the property does not read as [undefined]. *)
Definition has_key (o : Obj) (k : string) : bool := bool_decide (is_Some (o !! k)).
Definition has_value (o : Obj) (k : string) : bool := negb (is_undefined (prop o k)).

(** The value of option [k] when the per-call options are layered over the
    constructor's and those over the library defaults, for a reading
    [supplied] of "supplied". *)
Definition layered (supplied : Obj -> string -> bool) (per_call ctor library : Obj)
    (k : string) : JSVal :=
  if supplied per_call k then prop per_call k
  else if supplied ctor k then prop ctor k
  else prop library k.

(** A sequence of calls used to exercise the theorems. *)
Definition sample_requests : list Request :=
  [ Format 1234.5 ∅;
    FormatRange 1 2.5 {[ "locale" := VString "ja-JP" ]};
    FormatCurrency 12.5 {[ "currency" := VString "USD" ]};
    FormatCompact 1500 ∅ ].

(** Goals [grows s s'] and equations between records of native
    constructions, for states in the form symbolic execution leaves. *)
Ltac solve_grows :=
  repeat split; cbn [heap console native_calls];
  repeat apply prefix_app_r; reflexivity.

Ltac solve_calls :=
  cbn [heap console native_calls];
  rewrite <- ?app_assoc, ?app_nil_r; reflexivity.

(** * Running the primitives *)

Lemma bind_run {A B} (m : M A) (f : A -> M B) s :
  bind m f s = match m s with
               | (Normal a, s') => f a s'
               | (Throw e, s') => (Throw e, s')
               end.
Proof. reflexivity. Qed.

Lemma lift_run {A} (c : Completion A) s : lift c s = (c, s).
Proof. reflexivity. Qed.

Lemma try_catch_run {A} (m : M A) (handler : Exn -> M A) s :
  try_catch m handler s = match m s with
                          | (Normal a, s') => (Normal a, s')
                          | (Throw e, s') => handler e s'
                          end.
Proof. reflexivity. Qed.

Lemma alter_fresh {A} (f : A -> A) (l : list A) (x : A) :
  alter f (length l) (l ++ [x])%list = (l ++ [f x])%list.
Proof.
  replace (length l) with (length l + 0) by lia.
  by rewrite alter_app_r.
Qed.

Lemma lookup_fresh {A} (l : list A) (x : A) : (l ++ [x])%list !! length l = Some x.
Proof. by rewrite lookup_app_r, Nat.sub_diag by lia. Qed.

Lemma delete_prop_fresh H x C N k :
  delete_prop (length H) k (mkState (H ++ [x]) C N)
  = (Normal tt, mkState (H ++ [delete k x]) C N).
Proof. unfold delete_prop. simpl. by rewrite alter_fresh. Qed.

Lemma load_fresh H x C N :
  load (length H) (mkState (H ++ [x]) C N) = (Normal x, mkState (H ++ [x]) C N).
Proof. unfold load, obj_at. simpl. by rewrite lookup_fresh. Qed.

Section Runs.
Variable h : Host.

Lemma new_NumberFormat_run locales options s :
  new_NumberFormat h locales options s
  = (constructs h locales options, recorded h s locales options).
Proof.
  unfold new_NumberFormat, constructs, recorded. by destruct (Intl h).
Qed.

Lemma probe_run (o : Obj) s :
  try_catch (_ <- new_NumberFormat h (VString "en") o ;; ret true) (fun _ => ret false) s
  = (Normal (supported h o), recorded h s (VString "en") o).
Proof.
  rewrite try_catch_run, bind_run, new_NumberFormat_run. unfold supported.
  by destruct (constructs h (VString "en") o).
Qed.

Lemma supportsNotation_run s :
  supportsNotation h s
  = (Normal (supported h notation_probe), recorded h s (VString "en") notation_probe).
Proof. apply probe_run. Qed.

Lemma supportsRoundingMode_run s :
  supportsRoundingMode h s
  = (Normal (supported h roundingMode_probe),
     recorded h s (VString "en") roundingMode_probe).
Proof. apply probe_run. Qed.

Lemma supportsSignDisplay_run s :
  supportsSignDisplay h s
  = (Normal (supported h signDisplay_probe),
     recorded h s (VString "en") signDisplay_probe).
Proof. apply probe_run. Qed.

Lemma supportsUnitFormat_run s :
  supportsUnitFormat h s
  = (Normal (supported h unit_probe), recorded h s (VString "en") unit_probe).
Proof. apply probe_run. Qed.

Lemma resolve_options_run this options s :
  resolve_options this options s
  = (Normal (resolved_locale (obj_at s (defaultOptions this)) options,
             resolved_formatOptions (obj_at s (defaultOptions this)) options), s).
Proof.
  unfold resolve_options, resolved_locale, resolved_formatOptions.
  rewrite bind_run. unfold load at 1. cbv beta iota.
  rewrite bind_run.
  by destruct (is_undefined (prop (spread2 (obj_at s (defaultOptions this)) options) "locale")).
Qed.

Lemma forEach_delete_if_undefined H C N keys : forall x,
  forEach (fun key => o' <- load (length H) ;;
                      when (is_undefined (prop o' key)) (delete_prop (length H) key))
          keys (mkState (H ++ [x]) C N)
  = (Normal tt, mkState (H ++ [foldl delete_if_undefined x keys]) C N).
Proof.
  induction keys as [|k keys IH]; intros x; [reflexivity|].
  cbn [forEach foldl]. rewrite bind_run, bind_run, load_fresh.
  unfold delete_if_undefined at 2.
  destruct (is_undefined (prop x k)); cbn [when].
  - rewrite delete_prop_fresh. apply IH.
  - apply IH.
Qed.

Lemma delete_undefined_fresh H x C N :
  delete_undefined (length H) (mkState (H ++ [x]) C N)
  = (Normal tt, mkState (H ++ [without_undefined x]) C N).
Proof.
  unfold delete_undefined. rewrite bind_run, load_fresh.
  apply forEach_delete_if_undefined.
Qed.

End Runs.

(** * Running [format] *)

Lemma grows_refl s : grows s s.
Proof. by repeat split. Qed.

Lemma grows_trans s1 s2 s3 : grows s1 s2 -> grows s2 s3 -> grows s1 s3.
Proof.
  intros (? & ? & ?) (? & ? & ?). repeat split; etrans; eauto.
Qed.

Lemma grows_obj_at s s' l :
  grows s s' -> l < length (heap s) -> obj_at s' l = obj_at s l.
Proof.
  intros ([g Hg] & _) Hl. unfold obj_at. rewrite Hg.
  by rewrite lookup_app_l.
Qed.

Lemma grows_valid this s s' : grows s s' -> valid this s -> valid this s'.
Proof.
  intros ([g Hg] & _). unfold valid. rewrite Hg, length_app. lia.
Qed.

Section FormatRuns.
Variable h : Host.

Lemma recorded_with c s locales options :
  Intl h = IntlWith c ->
  recorded h s locales options
  = mkState (heap s) (console s) (native_calls s ++ [(locales, options)]).
Proof. intros E. unfold recorded. by rewrite E. Qed.

Lemma grows_recorded s locales options : grows s (recorded h s locales options).
Proof. unfold recorded. destruct (Intl h); solve_grows. Qed.

Lemma obj_at_recorded s locales options l :
  obj_at (recorded h s locales options) l = obj_at s l.
Proof. unfold recorded. by destruct (Intl h). Qed.

Lemma when_delete1_fresh (b : bool) H x C N k :
  when (negb b) (delete_prop (length H) k) (mkState (H ++ [x]) C N)
  = (Normal tt, mkState (H ++ [if b then x else delete k x]) C N).
Proof. destruct b; cbn [negb when]; [reflexivity|]. apply delete_prop_fresh. Qed.

Lemma when_delete2_fresh (b : bool) H x C N k1 k2 :
  when (negb b) (delete_prop (length H) k1 ;;; delete_prop (length H) k2)
    (mkState (H ++ [x]) C N)
  = (Normal tt, mkState (H ++ [if b then x else delete k2 (delete k1 x)]) C N).
Proof.
  destruct b; cbn [negb when]; [reflexivity|].
  rewrite bind_run, delete_prop_fresh. apply delete_prop_fresh.
Qed.

(** The [catch] block of [format]. *)
Lemma format_catch_run this value e s :
  (console_error (FormattingError e) ;;;
   d <- load (defaultOptions this) ;;
   lift (toLocaleString h value (prop d "locale"))) s
  = (toLocaleString h value (prop (obj_at s (defaultOptions this)) "locale"),
     mkState (heap s) (console s ++ [FormattingError e]) (native_calls s)).
Proof. reflexivity. Qed.

Lemma format_run_calls this value options s :
  valid this s ->
  exists s',
    format h this value options s
    = (format_result h (obj_at s (defaultOptions this)) value options, s')
    /\ grows s s'
    /\ native_calls s'
       = (native_calls s
          ++ format_native_calls h (obj_at s (defaultOptions this)) value options)%list.
Proof.
  intros Hv. unfold format, format_result, format_try, format_native_calls.
  rewrite try_catch_run, bind_run, resolve_options_run. cbv beta iota.
  set (D := obj_at s (defaultOptions this)).
  destruct (js_lt (Math_abs value) Math_pow_10_m6
            && truthy (prop options "minimumFractionDigits")).
  { rewrite lift_run. destruct (toFixed h value _).
    - eexists; split; [reflexivity | split; [apply grows_refl | solve_calls]].
    - cbv beta iota. rewrite format_catch_run.
      eexists; split; [reflexivity | split; [solve_grows | solve_calls]]. }
  unfold Intl_missing. destruct (Intl h) as [| |c] eqn:E.
  1,2: rewrite lift_run; destruct (toLocaleString h value (resolved_locale D options));
       [ eexists; split; [reflexivity | split; [apply grows_refl | solve_calls]]
       | cbv beta iota; rewrite format_catch_run;
         eexists; split; [reflexivity | split; [solve_grows | solve_calls]] ].
  rewrite bind_run. unfold alloc at 1. cbv beta iota.
  rewrite bind_run, supportsNotation_run, (recorded_with c) by done.
  cbn [heap console native_calls]. rewrite bind_run, when_delete2_fresh.
  rewrite bind_run, supportsRoundingMode_run, (recorded_with c) by done.
  cbn [heap console native_calls]. rewrite bind_run, when_delete1_fresh.
  rewrite bind_run, supportsSignDisplay_run, (recorded_with c) by done.
  cbn [heap console native_calls]. rewrite bind_run, when_delete1_fresh.
  rewrite bind_run, supportsUnitFormat_run, (recorded_with c) by done.
  cbn [heap console native_calls]. rewrite bind_run, when_delete2_fresh.
  rewrite bind_run, delete_undefined_fresh, bind_run, load_fresh.
  fold (format_safe_options h (resolved_formatOptions D options)).
  rewrite bind_run, new_NumberFormat_run, (recorded_with c) by done.
  cbn [heap console native_calls].
  assert (HD : forall C N x,
             obj_at (mkState (heap s ++ [x]) C N) (defaultOptions this) = D).
  { intros. unfold obj_at, D. cbn [heap]. by rewrite lookup_app_l. }
  destruct (constructs h _ _) as [formatter|e]; cbn [cbind].
  - rewrite lift_run. destruct (nf_format formatter value).
    + eexists; split; [reflexivity | split; [solve_grows | solve_calls]].
    + cbv beta iota. rewrite format_catch_run, HD.
      eexists; split; [reflexivity | split; [solve_grows | solve_calls]].
  - cbv beta iota. rewrite format_catch_run, HD.
    eexists; split; [reflexivity | split; [solve_grows | solve_calls]].
Qed.

Lemma format_run this value options s :
  valid this s ->
  exists s',
    format h this value options s
    = (format_result h (obj_at s (defaultOptions this)) value options, s')
    /\ grows s s'.
Proof.
  intros Hv. destruct (format_run_calls this value options s Hv) as (s' & E & G & _).
  by exists s'.
Qed.

End FormatRuns.

(** * Running [formatRange] and the other methods *)

Section CallRuns.
Variable h : Host.

Lemma supportsFormatRange_run s :
  supportsFormatRange h s = (Normal (has_formatRange h), s).
Proof. reflexivity. Qed.

Lemma getLocaleSeparator_run locale s :
  getLocaleSeparator h locale s = (locale_separator h locale, s).
Proof. by destruct locale. Qed.

(** The [catch] block of [formatRange], entered in a state [s1] reached from
    [s] with the native constructions [pre]. *)
Lemma formatRange_catch_run this start end_ e s s1 pre :
  valid this s -> grows s s1 ->
  native_calls s1 = (native_calls s ++ pre)%list ->
  exists s',
    (console_error (RangeFormattingError e) ;;;
     a <- format h this start ∅ ;;
     b <- format h this end_ ∅ ;;
     ret (a ++ " - " ++ b)) s1
    = (cbind (format_result h (obj_at s (defaultOptions this)) start ∅) (fun a =>
       cbind (format_result h (obj_at s (defaultOptions this)) end_ ∅) (fun b =>
       Normal (a ++ " - " ++ b))), s')
    /\ grows s s'
    /\ exists rest, native_calls s' = ((native_calls s ++ pre) ++ rest)%list.
Proof.
  intros Hv G1 Hpre. rewrite bind_run. unfold console_error at 1. cbv beta iota.
  set (s2 := mkState _ _ _).
  assert (G2 : grows s s2) by (eapply grows_trans; [exact G1 | solve_grows]).
  assert (P2 : (native_calls s ++ pre)%list `prefix_of` native_calls s2)
    by (rewrite <- Hpre; reflexivity).
  destruct (format_run h this start ∅ s2) as (s3 & E3 & G3);
    [by eapply grows_valid|].
  rewrite bind_run, E3, (grows_obj_at s s2) by done.
  assert (G3' : grows s s3) by (by eapply grows_trans).
  assert (P3 : (native_calls s ++ pre)%list `prefix_of` native_calls s3)
    by (etrans; [exact P2 | apply G3]).
  clear E3.
  destruct (format_result h (obj_at s (defaultOptions this)) start ∅) as [a|e1];
    cbn [cbind];
    [|eexists; split; [reflexivity | split; [done | exact P3]]].
  destruct (format_run h this end_ ∅ s3) as (s4 & E4 & G4);
    [by eapply grows_valid|].
  rewrite bind_run, E4, (grows_obj_at s s3) by done.
  assert (G4' : grows s s4) by (by eapply grows_trans).
  assert (P4 : (native_calls s ++ pre)%list `prefix_of` native_calls s4)
    by (etrans; [exact P3 | apply G4]).
  clear E4.
  destruct (format_result h (obj_at s (defaultOptions this)) end_ ∅) as [b|e2];
    cbn [cbind];
    (eexists; split; [reflexivity | split; [done | exact P4]]).
Qed.

Lemma formatRange_run_calls this start end_ options s :
  valid this s ->
  exists s',
    formatRange h this start end_ options s
    = (formatRange_result h (obj_at s (defaultOptions this)) start end_ options, s')
    /\ grows s s'
    /\ exists rest,
         native_calls s'
         = ((native_calls s
             ++ formatRange_native_calls h (obj_at s (defaultOptions this)) options)
            ++ rest)%list.
Proof.
  intros Hv.
  unfold formatRange, formatRange_result, formatRange_try, formatRange_native_calls.
  rewrite try_catch_run, bind_run, resolve_options_run. cbv beta iota.
  set (D := obj_at s (defaultOptions this)).
  unfold Intl_missing. destruct (Intl h) as [| |c] eqn:E.
  1,2: rewrite bind_run, lift_run;
       destruct (toLocaleString h start (resolved_locale D options)); cbn [cbind];
       [ rewrite bind_run, lift_run;
         destruct (toLocaleString h end_ (resolved_locale D options)); cbn [cbind];
         [ eexists; split;
           [reflexivity | split; [apply grows_refl | exists []; solve_calls]]
         | cbv beta iota; apply formatRange_catch_run;
           [done | apply grows_refl | solve_calls] ]
       | cbv beta iota; apply formatRange_catch_run;
         [done | apply grows_refl | solve_calls] ].
  rewrite bind_run. unfold alloc at 1. cbv beta iota.
  rewrite bind_run, supportsNotation_run, (recorded_with h c) by done.
  cbn [heap console native_calls]. rewrite bind_run, when_delete2_fresh.
  rewrite bind_run, supportsRoundingMode_run, (recorded_with h c) by done.
  cbn [heap console native_calls]. rewrite bind_run, when_delete1_fresh.
  rewrite bind_run, supportsSignDisplay_run, (recorded_with h c) by done.
  cbn [heap console native_calls]. rewrite bind_run, when_delete1_fresh.
  rewrite bind_run, delete_undefined_fresh, bind_run, load_fresh.
  fold (formatRange_safe_options h (resolved_formatOptions D options)).
  rewrite bind_run, new_NumberFormat_run, (recorded_with h c) by done.
  cbn [heap console native_calls].
  destruct (constructs h _ _) as [formatter|e]; cbn [cbind];
    [| cbv beta iota; apply formatRange_catch_run;
       [done | solve_grows | solve_calls] ].
  rewrite bind_run, supportsFormatRange_run.
  destruct (has_formatRange h).
  { rewrite lift_run. destruct (nf_formatRange formatter start end_).
    - eexists; split; [reflexivity | split; [solve_grows | exists []; solve_calls]].
    - cbv beta iota. apply formatRange_catch_run;
        [done | solve_grows | solve_calls]. }
  rewrite bind_run, getLocaleSeparator_run.
  destruct (locale_separator h _) as [separator|e]; cbn [cbind];
    [| cbv beta iota; apply formatRange_catch_run;
       [done | solve_grows | solve_calls] ].
  rewrite bind_run, lift_run.
  destruct (nf_format formatter start) as [a|e]; cbn [cbind];
    [| cbv beta iota; apply formatRange_catch_run;
       [done | solve_grows | solve_calls] ].
  rewrite bind_run, lift_run.
  destruct (nf_format formatter end_) as [b|e]; cbn [cbind];
    [| cbv beta iota; apply formatRange_catch_run;
       [done | solve_grows | solve_calls] ].
  eexists; split; [reflexivity | split; [solve_grows | exists []; solve_calls]].
Qed.

Lemma formatRange_run this start end_ options s :
  valid this s ->
  exists s',
    formatRange h this start end_ options s
    = (formatRange_result h (obj_at s (defaultOptions this)) start end_ options, s')
    /\ grows s s'.
Proof.
  intros Hv.
  destruct (formatRange_run_calls this start end_ options s Hv) as (s' & E & G & _).
  by exists s'.
Qed.

(** [format], called in a state [s1] reached from [s]. *)
Lemma format_run_from this value options s s1 :
  valid this s -> grows s s1 ->
  exists s',
    format h this value options s1
    = (format_result h (obj_at s (defaultOptions this)) value options, s')
    /\ grows s s'.
Proof.
  intros Hv G1.
  destruct (format_run h this value options s1) as (s' & E & G);
    [by eapply grows_valid|].
  exists s'. rewrite E, (grows_obj_at s s1) by done.
  split; [reflexivity | by eapply grows_trans].
Qed.

Lemma compact_scaled_run value options scale suffix s :
  (r <- lift (toFixed h (Math_abs value / scale)
                (VNumber (compact_precision h options))) ;;
   ret (compact_sign value ++ r ++ suffix)) s
  = (compact_scaled h value options scale suffix, s).
Proof.
  rewrite bind_run, lift_run. unfold compact_scaled.
  by destruct (toFixed h _ _).
Qed.

Theorem call_run this r s :
  valid this s ->
  exists s',
    call h this r s = (call_result h (obj_at s (defaultOptions this)) r, s')
    /\ grows s s'.
Proof.
  intros Hv. destruct r as [v o|v o|v o|v u o|v fn o|a b o|v o|v o];
    cbn [call call_result].
  - by apply format_run.
  - by apply format_run.
  - by apply format_run.
  - unfold formatUnit. rewrite bind_run, supportsUnitFormat_run.
    destruct (supported h unit_probe); cbn [negb].
    + apply format_run_from; [done | apply grows_recorded].
    + rewrite bind_run.
      destruct (format_run_from this v o s (recorded h s (VString "en") unit_probe))
        as (s' & E & G); [done | apply grows_recorded |].
      rewrite E. exists s'. split; [|done].
      by destruct (format_result h _ v o).
  - unfold formatCustom. rewrite bind_run.
    destruct (format_run h this v o s) as (s' & E & G); [done|].
    rewrite E. exists s'. split; [|done].
    by destruct (format_result h _ v o).
  - by apply formatRange_run.
  - unfold formatCompact. rewrite bind_run, supportsNotation_run.
    destruct (supported h notation_probe); cbn [negb].
    + apply format_run_from; [done | apply grows_recorded].
    + fold (compact_sign v).
      fold (compact_precision h o).
      repeat (match goal with
              | |- context [if ?c then _ else _] => destruct c
              end;
              [ rewrite compact_scaled_run; eexists; split;
                [reflexivity | apply grows_recorded] |]).
      apply format_run_from; [done | apply grows_recorded].
  - unfold formatScientific. rewrite bind_run, supportsNotation_run.
    destruct (supported h notation_probe); cbn [negb].
    + apply format_run_from; [done | apply grows_recorded].
    + rewrite lift_run. eexists; split; [reflexivity | apply grows_recorded].
Qed.

End CallRuns.

(** * No persistent state, and determinism *)

Section Frame.
Variable h : Host.

Lemma call_grows this r s : valid this s -> grows s (snd (call h this r s)).
Proof.
  intros Hv. destruct (call_run h this r s Hv) as (s' & E & G). by rewrite E.
Qed.

Lemma call_fst this r s :
  valid this s ->
  fst (call h this r s) = call_result h (obj_at s (defaultOptions this)) r.
Proof.
  intros Hv. destruct (call_run h this r s Hv) as (s' & E & G). by rewrite E.
Qed.

Lemma calls_grows this rs : forall s,
  valid this s -> grows s (snd (calls h this rs s)).
Proof.
  induction rs as [|r rs IH]; intros s Hv; cbn [calls]; [apply grows_refl|].
  pose proof (call_grows this r s Hv) as G.
  destruct (call h this r s) as [c s1]. cbn [snd] in G.
  specialize (IH s1 (grows_valid _ _ _ G Hv)).
  destruct (calls h this rs s1) as [cs s2]. cbn [snd] in *.
  by eapply grows_trans.
Qed.

Lemma constructor_valid options s0 this s :
  constructor h options s0 = (Normal this, s) -> valid this s.
Proof.
  unfold constructor. rewrite bind_run.
  unfold navigator_language.
  destruct (navigator h); cbn; intros [= <- <-]; unfold valid; cbn;
    rewrite length_app; cbn; lia.
Qed.

(** C9.  The formatter holds no persistent mutable state: after any sequence
    of calls of the public formatting methods, with any arguments, on an
    instance whose [defaultOptions] object is in the store, that object
    holds the same properties as before the calls, and so a further call
    returns what it would have returned before them. *)
Theorem no_persistent_state this (rs : list Request) (r : Request) s :
  valid this s ->
  obj_at (snd (calls h this rs s)) (defaultOptions this)
  = obj_at s (defaultOptions this)
  /\ fst (call h this r (snd (calls h this rs s))) = fst (call h this r s).
Proof.
  intros Hv. pose proof (calls_grows this rs s Hv) as G.
  assert (E : obj_at (snd (calls h this rs s)) (defaultOptions this)
              = obj_at s (defaultOptions this))
    by (by apply grows_obj_at).
  split; [exact E|].
  rewrite !call_fst, E; [reflexivity | done | by eapply grows_valid].
Qed.

(** C8.  For a fixed host, calling the same formatting method twice with the
    same arguments completes the same way both times: with the same string,
    or with the same exception.  More generally the completion of a call is
    determined by the host, the arguments and the properties of the
    instance's [defaultOptions] object: it is the same in any state, and on
    any instance, where that object holds the same properties. *)
Theorem call_deterministic this (r : Request) s :
  valid this s ->
  fst (call h this r (snd (call h this r s))) = fst (call h this r s)
  /\ forall this' s',
       valid this' s' ->
       obj_at s' (defaultOptions this') = obj_at s (defaultOptions this) ->
       fst (call h this' r s') = fst (call h this r s).
Proof.
  intros Hv. pose proof (call_grows this r s Hv) as G. split.
  - rewrite !call_fst; [| done | by eapply grows_valid].
    by rewrite (grows_obj_at s).
  - intros this' s' Hv' E. rewrite !call_fst by done. by rewrite E.
Qed.

End Frame.

Lemma no_persistent_state_witness :
  valid {| defaultOptions := 0 |}
    (snd (constructor (ToyHost.host ToyHost.modern) ∅ ToyHost.init))
  /\ (obj_at (snd (calls (ToyHost.host ToyHost.modern) {| defaultOptions := 0 |}
                    sample_requests
                    (snd (constructor (ToyHost.host ToyHost.modern) ∅ ToyHost.init))))
             0
       = obj_at (snd (constructor (ToyHost.host ToyHost.modern) ∅ ToyHost.init)) 0
       /\ fst (call (ToyHost.host ToyHost.modern) {| defaultOptions := 0 |}
                 (Format 0.5 ∅)
                 (snd (calls (ToyHost.host ToyHost.modern) {| defaultOptions := 0 |}
                         sample_requests
                         (snd (constructor (ToyHost.host ToyHost.modern) ∅
                                 ToyHost.init)))))
          = fst (call (ToyHost.host ToyHost.modern) {| defaultOptions := 0 |}
                   (Format 0.5 ∅)
                   (snd (constructor (ToyHost.host ToyHost.modern) ∅ ToyHost.init)))).
Proof.
  split.
  - vm_compute. lia.
  - apply (no_persistent_state (ToyHost.host ToyHost.modern)
             {| defaultOptions := 0 |} sample_requests (Format 0.5 ∅)).
    vm_compute. lia.
Defined.

Lemma call_deterministic_witness :
  valid {| defaultOptions := 0 |}
    (snd (constructor (ToyHost.host ToyHost.modern) ∅ ToyHost.init))
  /\ fst (call (ToyHost.host ToyHost.modern) {| defaultOptions := 0 |}
            (FormatRange 1 2.5 ∅)
            (snd (call (ToyHost.host ToyHost.modern) {| defaultOptions := 0 |}
                    (FormatRange 1 2.5 ∅)
                    (snd (constructor (ToyHost.host ToyHost.modern) ∅ ToyHost.init)))))
     = fst (call (ToyHost.host ToyHost.modern) {| defaultOptions := 0 |}
              (FormatRange 1 2.5 ∅)
              (snd (constructor (ToyHost.host ToyHost.modern) ∅ ToyHost.init))).
Proof.
  split.
  - vm_compute. lia.
  - exact (proj1 (call_deterministic (ToyHost.host ToyHost.modern)
                    {| defaultOptions := 0 |} (FormatRange 1 2.5 ∅)
                    (snd (constructor (ToyHost.host ToyHost.modern) ∅ ToyHost.init))
                    ltac:(vm_compute; lia))).
Defined.

(** * The fallback string builders *)

(** Comparisons of doubles: from [x < y] and [y <= z], not [z <= x]. *)
Lemma SFcompare_chain x y z :
  SFltb x y = true -> SFleb y z = true -> SFleb z x = false.
Proof.
  unfold SFltb, SFleb.
  destruct x as [sx|sx| |sx mx ex], y as [sy|sy| |sy my ey], z as [sz|sz| |sz mz ez];
    cbn [SFcompare];
    repeat match goal with s : bool |- _ => destruct s end;
    try (intros; congruence);
    try discriminate.
  all: change PosDef.Pos.compare_cont with Pos.compare_cont;
       change (Pos.compare_cont Eq) with Pos.compare.
  all: repeat match goal with
       | |- context [(?a ?= ?b)%Z] => destruct (Z.compare_spec a b)
       | |- context [(?a ?= ?b)%positive] => destruct (Pos.compare_spec a b)
       end; subst; cbn [CompOpp]; try (intros; congruence); try discriminate; try lia.
Qed.

Lemma js_lt_le_not_ge a b c :
  js_lt a b = true -> js_ge c b = true -> js_ge a c = false.
Proof.
  unfold js_lt, js_ge. rewrite ltb_spec, !leb_spec. apply SFcompare_chain.
Qed.

Section Fallbacks.
Variable h : Host.

Lemma supportsNotation_false s :
  fst (supportsNotation h s) = Normal false -> supported h notation_probe = false.
Proof. rewrite supportsNotation_run. cbn [fst]. congruence. Qed.

(** C3.  When the notation probe reports no support, [formatCompact] uses
    the suffix table T/B/M/K: for [|v| >= 1e12] it returns the sign, then
    [toFixed] of [|v| / 1e12], then ['T']; likewise with [1e9] and ['B'] for
    [1e9 <= |v| < 1e12], with [1e6] and ['M'] for [1e6 <= |v| < 1e9], with
    [1e3] and ['K'] for [1e3 <= |v| < 1e6].  The digit count given to
    [toFixed] is 1 clamped between [minimumFractionDigits] and
    [maximumFractionDigits], each 1 when the caller leaves it undefined; the
    sign is ['-'] exactly when [v < 0]; an exception of [toFixed] is the
    call's.  For [|v| < 1e3] the call is [this.format(value, options)], run
    in the state the probe left. *)
Theorem formatCompact_fallback this (v : float) (o : Obj) s :
  fst (supportsNotation h s) = Normal false ->
  let minimumFractionDigits := default_to (prop o "minimumFractionDigits") (VNumber 1) in
  let maximumFractionDigits := default_to (prop o "maximumFractionDigits") (VNumber 1) in
  let precision :=
    VNumber (Math_min (Math_max (ToNumber h minimumFractionDigits) 1)
                      (ToNumber h maximumFractionDigits)) in
  let sign := if js_lt v 0 then "-" else "" in
  let scaled (scale : float) (suffix : string) : Completion string :=
    match toFixed h (Math_abs v / scale) precision with
    | Normal r => Normal (sign ++ r ++ suffix)
    | Throw e => Throw e
    end in
  (js_ge (Math_abs v) 1e12 = true ->
   fst (formatCompact h this v o s) = scaled 1e12%float "T")
  /\ (js_ge (Math_abs v) 1e9 = true -> js_lt (Math_abs v) 1e12 = true ->
      fst (formatCompact h this v o s) = scaled 1e9%float "B")
  /\ (js_ge (Math_abs v) 1e6 = true -> js_lt (Math_abs v) 1e9 = true ->
      fst (formatCompact h this v o s) = scaled 1e6%float "M")
  /\ (js_ge (Math_abs v) 1e3 = true -> js_lt (Math_abs v) 1e6 = true ->
      fst (formatCompact h this v o s) = scaled 1e3%float "K")
  /\ (js_lt (Math_abs v) 1e3 = true ->
      formatCompact h this v o s
      = format h this v o (snd (supportsNotation h s))).
Proof.
  intros Hn. apply supportsNotation_false in Hn.
  cbv zeta. unfold formatCompact.
  rewrite bind_run, supportsNotation_run, Hn. cbn [negb fst snd].
  fold (compact_sign v). fold (compact_precision h o).
  assert (L12 : forall a, js_lt a 1e12 = true -> js_ge a 1e12 = false)
    by (intros a Ha; by apply (js_lt_le_not_ge a 1e12 1e12)).
  assert (L9 : forall a, js_lt a 1e9 = true ->
                js_ge a 1e12 = false /\ js_ge a 1e9 = false)
    by (intros a Ha; split; by apply (js_lt_le_not_ge a 1e9)).
  assert (L6 : forall a, js_lt a 1e6 = true ->
                js_ge a 1e12 = false /\ js_ge a 1e9 = false /\ js_ge a 1e6 = false)
    by (intros a Ha; repeat split; by apply (js_lt_le_not_ge a 1e6)).
  assert (L3 : forall a, js_lt a 1e3 = true ->
                js_ge a 1e12 = false /\ js_ge a 1e9 = false
                /\ js_ge a 1e6 = false /\ js_ge a 1e3 = false)
    by (intros a Ha; repeat split; by apply (js_lt_le_not_ge a 1e3)).
  repeat split.
  - intros ->. by rewrite compact_scaled_run.
  - intros H9 H12. rewrite (L12 _ H12), H9. by rewrite compact_scaled_run.
  - intros H6 H9. destruct (L9 _ H9) as [-> ->]. rewrite H6.
    by rewrite compact_scaled_run.
  - intros H3 H6. destruct (L6 _ H6) as (-> & -> & ->). rewrite H3.
    by rewrite compact_scaled_run.
  - intros H3. by destruct (L3 _ H3) as (-> & -> & -> & ->).
Qed.

(** C6.  When the notation probe reports no support, [formatScientific]
    returns [value.toExponential(p)] with
    [p = min(max(minimumSignificantDigits - 1, 0), maximumSignificantDigits - 1)],
    where [minimumSignificantDigits] is 3 and [maximumSignificantDigits] is
    5 when the caller leaves them undefined; [p] is 2 when both are left
    undefined. *)
Theorem formatScientific_fallback this (v : float) (o : Obj) s :
  fst (supportsNotation h s) = Normal false ->
  let minimumSignificantDigits :=
    default_to (prop o "minimumSignificantDigits") (VNumber 3) in
  let maximumSignificantDigits :=
    default_to (prop o "maximumSignificantDigits") (VNumber 5) in
  let p := Math_min (Math_max (ToNumber h minimumSignificantDigits - 1) 0)
                    (ToNumber h maximumSignificantDigits - 1) in
  fst (formatScientific h this v o s) = toExponential h v (VNumber p)
  /\ (is_undefined (prop o "minimumSignificantDigits") = true ->
      is_undefined (prop o "maximumSignificantDigits") = true ->
      p = 2%float).
Proof.
  intros Hn. apply supportsNotation_false in Hn. cbv zeta. split.
  - unfold formatScientific. rewrite bind_run, supportsNotation_run, Hn.
    reflexivity.
  - unfold default_to. intros -> ->. reflexivity.
Qed.

End Fallbacks.

(** * The small-number branch of [format] *)

Section SmallNumbers.
Variable h : Host.

(** C10, as amended.  For [|v| < 1e-6] and per-call options whose
    [minimumFractionDigits] is truthy, [format] calls
    [v.toFixed(options.minimumFractionDigits)] and returns its result,
    whatever the locale and the other merged options are, without
    constructing a native formatter; when that call throws, the [catch]
    block answers with [value.toLocaleString(this.defaultOptions.locale)].
    When the per-call [minimumFractionDigits] is falsy (absent, undefined, 0
    or NaN, whatever the constructor defaults hold), [toFixed] plays no role
    in the call. *)
Theorem format_small_number this (v : float) (o : Obj) s :
  (js_lt (Math_abs v) Math_pow_10_m6 = true ->
   truthy (prop o "minimumFractionDigits") = true ->
   fst (format h this v o s)
   = match toFixed h v (prop o "minimumFractionDigits") with
     | Normal r => Normal r
     | Throw _ =>
         toLocaleString h v (prop (obj_at s (defaultOptions this)) "locale")
     end
   /\ native_calls (snd (format h this v o s)) = native_calls s)
  /\ (truthy (prop o "minimumFractionDigits") = false ->
      forall f, format (with_toFixed h f) this v o s = format h this v o s).
Proof.
  split.
  - intros Hs Ht. unfold format.
    rewrite try_catch_run, bind_run, resolve_options_run. cbv beta iota.
    rewrite Hs, Ht. cbn [andb]. rewrite lift_run.
    destruct (toFixed h v _); [done|].
    cbv beta iota. by rewrite format_catch_run.
  - intros Ht f. unfold format. rewrite Ht, andb_false_r. reflexivity.
Qed.

End SmallNumbers.

(** The double [2^-24], about [5.96e-8]. *)
Lemma format_small_number_throws :
  js_lt (Math_abs 0x1p-24) Math_pow_10_m6 = true
  /\ truthy (VNumber 101) = true
  /\ toFixed (ToyHost.host ToyHost.modern) 0x1p-24 (VNumber 101) = Throw RangeError
  /\ ToyHost.run ToyHost.modern ∅
       (Format 0x1p-24 {[ "minimumFractionDigits" := VNumber 101 ]})
     = Normal "0".
Proof. repeat split; vm_compute; reflexivity. Qed.

(** * The separator of [formatRange] *)

Section RangeSeparator.
Variable h : Host.

(** C7, as amended.  When [Intl.NumberFormat] exists, its prototype has no
    [formatRange], the construction of the formatter and the two [format]
    calls complete normally with [a] and [b], and the resolved locale (or
    ['en'] when it is undefined or empty) is the string [tag], [formatRange]
    returns [a], a separator and [b]; the separator is chosen by the part of
    the lower-cased tag before the first hyphen. *)
Theorem formatRange_separator this (start end_ : float) (o : Obj) s
    (c : NumberFormatClass) (formatter : NumberFormat) (a b tag : string) :
  valid this s ->
  Intl h = IntlWith c ->
  nf_has_formatRange c = false ->
  nf_new c (resolved_locale (obj_at s (defaultOptions this)) o)
    (formatRange_safe_options h
       (resolved_formatOptions (obj_at s (defaultOptions this)) o))
  = Normal formatter ->
  nf_format formatter start = Normal a ->
  nf_format formatter end_ = Normal b ->
  js_or (resolved_locale (obj_at s (defaultOptions this)) o) (VString "en")
  = VString tag ->
  let lang := hd "" (split "-" (toLowerCase h tag)) in
  exists separator,
    fst (formatRange h this start end_ o s) = Normal (a ++ separator ++ b)
    /\ (lang = "zh" \/ lang = "ja" \/ lang = "ko" -> separator = "～")
    /\ (lang = "ar" \/ lang = "fa" \/ lang = "he" -> separator = "—")
    /\ (lang = "th" -> separator = " ถึง ")
    /\ (lang <> "zh" -> lang <> "ja" -> lang <> "ko" -> lang <> "ar" ->
        lang <> "fa" -> lang <> "he" -> lang <> "th" -> separator = "–").
Proof.
  intros Hv E Hr Hnew Ha Hb Htag lang.
  destruct (formatRange_run h this start end_ o s Hv) as (s' & Erun & _).
  rewrite Erun. cbn [fst].
  unfold formatRange_result, formatRange_try, Intl_missing, has_formatRange,
    constructs.
  rewrite E, Hnew, Hr, Htag. cbn [cbind locale_separator].
  rewrite Ha, Hb. cbn [cbind]. fold lang.
  eexists. split; [reflexivity|].
  repeat split.
  - intros [-> | [-> | ->]]; reflexivity.
  - intros [-> | [-> | ->]]; reflexivity.
  - intros ->; reflexivity.
  - intros N1 N2 N3 N4 N5 N6 N7.
    apply String.eqb_neq in N1, N2, N3, N4, N5, N6, N7.
    by rewrite N1, N2, N3, N4, N5, N6, N7.
Qed.

End RangeSeparator.

(** On a host without [formatRange], a Japanese locale and a currency style
    without currency: the construction throws and the [catch] block joins the
    two values with [' - ']. *)
Lemma formatRange_separator_fallback :
  Intl_missing (ToyHost.host ToyHost.no_formatRange) = false
  /\ fst (supportsFormatRange (ToyHost.host ToyHost.no_formatRange) ToyHost.init)
     = Normal false
  /\ ToyHost.run ToyHost.no_formatRange ∅
       (FormatRange 1 2.5
          (<[ "style" := VString "currency" ]> {[ "locale" := VString "ja-JP" ]}))
     = Normal "1 - 2.5"
  /\ occurs "～" "1 - 2.5" = false.
Proof. repeat split; vm_compute; reflexivity. Qed.

(** * The capability probes *)

Section Probes.
Variable h : Host.

(** C5, as amended.  Four capabilities (notation, rounding mode, sign
    display, unit) are probed by constructing a native formatter for locale
    ['en'] with the option in question inside a [try]: the probe never
    throws, and it returns [true] exactly when the construction completes
    normally.  Range formatting is probed without constructing anything: the
    probe is the test that [Intl.NumberFormat] exists and its prototype has a
    [formatRange] function. *)
Theorem probes_report s :
  fst (supportsNotation h s)
  = Normal (is_normal (fst (new_NumberFormat h (VString "en") notation_probe s)))
  /\ fst (supportsRoundingMode h s)
     = Normal (is_normal (fst (new_NumberFormat h (VString "en") roundingMode_probe s)))
  /\ fst (supportsSignDisplay h s)
     = Normal (is_normal (fst (new_NumberFormat h (VString "en") signDisplay_probe s)))
  /\ fst (supportsUnitFormat h s)
     = Normal (is_normal (fst (new_NumberFormat h (VString "en") unit_probe s)))
  /\ supportsFormatRange h s
     = (Normal match Intl h with
               | IntlWith c => nf_has_formatRange c
               | _ => false
               end, s).
Proof.
  rewrite supportsNotation_run, supportsRoundingMode_run,
    supportsSignDisplay_run, supportsUnitFormat_run, !new_NumberFormat_run.
  repeat split.
Qed.

End Probes.

(** Two hosts whose [Intl.NumberFormat] constructor completes alike on every
    argument, and on which the range probe answers differently. *)
Lemma supportsFormatRange_not_by_construction :
  (forall locales options,
     is_normal (constructs (ToyHost.host ToyHost.modern) locales options)
     = is_normal (constructs (ToyHost.host ToyHost.no_formatRange) locales options))
  /\ fst (supportsFormatRange (ToyHost.host ToyHost.modern) ToyHost.init)
     = Normal true
  /\ fst (supportsFormatRange (ToyHost.host ToyHost.no_formatRange) ToyHost.init)
     = Normal false.
Proof.
  split; [intros locales options; reflexivity | split; reflexivity].
Qed.

(** * Option resolution *)

Section Resolution.
Variable h : Host.

Lemma constructor_run ctor s0 this s :
  constructor h ctor s0 = (Normal this, s) ->
  valid this s
  /\ obj_at s (defaultOptions this) = spread2 (library_defaults (default_locale h)) ctor.
Proof.
  unfold constructor, default_locale, navigator_language.
  rewrite bind_run.
  destruct (navigator h); cbn; intros [= <- <-]; unfold valid, obj_at; cbn;
    rewrite length_app, lookup_fresh; cbn; (split; [lia | reflexivity]).
Qed.

Lemma prop_spread2 a b k :
  prop (spread2 a b) k = if has_key b k then prop b k else prop a k.
Proof.
  unfold prop, spread2, has_key. rewrite lookup_union.
  destruct (b !! k) eqn:Eb, (a !! k) eqn:Ea; reflexivity.
Qed.

Lemma prop_layered per ctor library k :
  prop (spread2 (spread2 library ctor) per) k = layered has_key per ctor library k.
Proof.
  unfold layered. rewrite !prop_spread2. reflexivity.
Qed.

(** C4, as amended.  [format] and [formatRange] first merge the per-call
    options over the instance defaults, which the constructor merged over
    the library defaults, by property: for every key other than [locale]
    the merged value is the per-call property when the per-call object has
    the key (also when it binds it to [undefined]), otherwise the
    constructor's when the constructor's object has the key, otherwise the
    library default.  The locale is the value so merged, unless that is
    [undefined]: then it is the locale of the instance defaults.  The
    library defaults are as listed. *)
Theorem option_resolution (ctor per_call : Obj) s0 this s :
  constructor h ctor s0 = (Normal this, s) ->
  let library := library_defaults (default_locale h) in
  (exists locale formatOptions,
     resolve_options this per_call s = (Normal (locale, formatOptions), s)
     /\ (forall k, k <> "locale" ->
         prop formatOptions k = layered has_key per_call ctor library k)
     /\ locale
        = if is_undefined (layered has_key per_call ctor library "locale")
          then layered has_key ∅ ctor library "locale"
          else layered has_key per_call ctor library "locale")
  /\ prop library "locale" = default_locale h
  /\ prop library "style" = VString "decimal"
  /\ prop library "notation" = VString "standard"
  /\ prop library "minimumFractionDigits" = VNumber 0
  /\ prop library "maximumFractionDigits" = VNumber 2
  /\ prop library "useGrouping" = VBoolean true
  /\ prop library "roundingMode" = VString "halfEven"
  /\ prop library "currencyDisplay" = VString "symbol"
  /\ prop library "unitDisplay" = VString "short"
  /\ prop library "signDisplay" = VString "auto"
  /\ prop library "compactDisplay" = VString "short".
Proof.
  intros Hc library. destruct (constructor_run _ _ _ _ Hc) as [Hv HD].
  split; [|repeat split].
  eexists _, _. split; [apply resolve_options_run|].
  rewrite HD. fold library. split.
  - intros k Hk. unfold resolved_formatOptions, prop.
    rewrite lookup_delete_ne by done. apply prop_layered.
  - unfold resolved_locale. rewrite !prop_layered.
    destruct (is_undefined _); [|reflexivity].
    rewrite prop_spread2. unfold layered. unfold has_key at 2.
    rewrite lookup_empty, bool_decide_eq_false_2 by (by intros [? ?]).
    reflexivity.
Qed.

End Resolution.

(** An explicit [undefined] in the per-call options: as the locale it is
    replaced by the instance's locale, for any other key it hides the
    constructor's value. *)
Lemma option_resolution_undefined :
  ToyHost.resolved_locale_of
    (ToyHost.resolved ToyHost.modern {[ "locale" := VString "fr-FR" ]}
       {[ "locale" := VUndefined ]})
  = VString "fr-FR"
  /\ layered has_key {[ "locale" := VUndefined ]} {[ "locale" := VString "fr-FR" ]}
       (library_defaults (default_locale (ToyHost.host ToyHost.modern))) "locale"
     = VUndefined
  /\ ToyHost.resolved_option_of
       (ToyHost.resolved ToyHost.modern {[ "maximumFractionDigits" := VNumber 4 ]}
          {[ "maximumFractionDigits" := VUndefined ]})
       "maximumFractionDigits"
     = VUndefined
  /\ layered has_value {[ "maximumFractionDigits" := VUndefined ]}
       {[ "maximumFractionDigits" := VNumber 4 ]}
       (library_defaults (default_locale (ToyHost.host ToyHost.modern)))
       "maximumFractionDigits"
     = VNumber 4
  /\ ToyHost.run ToyHost.modern {[ "maximumFractionDigits" := VNumber 4 ]}
       (Format 0.0625 ∅)
     = Normal "0.0625"
  /\ ToyHost.run ToyHost.modern {[ "maximumFractionDigits" := VNumber 4 ]}
       (Format 0.0625 {[ "maximumFractionDigits" := VUndefined ]})
     = Normal "0.063".
Proof. repeat split; vm_compute; reflexivity. Qed.

Lemma option_resolution_witness :
  constructor (ToyHost.host ToyHost.modern) {[ "style" := VString "percent" ]}
    ToyHost.init
  = (Normal {| defaultOptions := 0 |},
     snd (constructor (ToyHost.host ToyHost.modern) {[ "style" := VString "percent" ]}
            ToyHost.init))
  /\ exists locale formatOptions,
       resolve_options {| defaultOptions := 0 |} {[ "useGrouping" := VBoolean false ]}
         (snd (constructor (ToyHost.host ToyHost.modern)
                 {[ "style" := VString "percent" ]} ToyHost.init))
       = (Normal (locale, formatOptions),
          snd (constructor (ToyHost.host ToyHost.modern)
                 {[ "style" := VString "percent" ]} ToyHost.init))
       /\ prop formatOptions "useGrouping" = VBoolean false
       /\ prop formatOptions "style" = VString "percent"
       /\ prop formatOptions "notation" = VString "standard"
       /\ locale = VString "en-US".
Proof.
  split; [reflexivity|].
  destruct (option_resolution (ToyHost.host ToyHost.modern)
              {[ "style" := VString "percent" ]} {[ "useGrouping" := VBoolean false ]}
              ToyHost.init {| defaultOptions := 0 |} _ eq_refl)
    as [(locale & formatOptions & E & Hk & Hl) _].
  exists locale, formatOptions. split; [exact E|].
  rewrite !Hk by done. rewrite Hl. repeat split.
Defined.

(** * What reaches the native constructor, and when a call returns *)

Lemma delete_if_undefined_lookup (o : Obj) key k :
  delete_if_undefined o key !! k
  = if decide (key = k) then cleaned (o !! k) else o !! k.
Proof.
  unfold delete_if_undefined, prop.
  destruct (decide (key = k)) as [->|Hne].
  - destruct (o !! k) as [[]|] eqn:E; simpl; rewrite ?lookup_delete_eq; done.
  - destruct (is_undefined _); [by rewrite lookup_delete_ne|done].
Qed.

Lemma cleaned_idem x : cleaned (cleaned x) = cleaned x.
Proof. by destruct x as [[]|]. Qed.

Lemma foldl_delete_if_undefined_lookup keys : forall (o : Obj) k,
  foldl delete_if_undefined o keys !! k
  = if decide (k ∈ keys) then cleaned (o !! k) else o !! k.
Proof.
  induction keys as [|key keys IH]; intros o k; cbn [foldl].
  - destruct (decide (k ∈ [])) as [Hin|]; [by apply elem_of_nil in Hin | done].
  - rewrite IH, delete_if_undefined_lookup.
    destruct (decide (key = k)) as [->|Hne], (decide (k ∈ keys)) as [Hin|Hin],
      (decide (k ∈ _ :: keys)) as [Hin'|Hin'];
      rewrite ?cleaned_idem; try done; exfalso;
      rewrite elem_of_cons in Hin'; intuition congruence.
Qed.

Lemma without_undefined_lookup (o : Obj) k :
  without_undefined o !! k = cleaned (o !! k).
Proof.
  unfold without_undefined. rewrite foldl_delete_if_undefined_lookup.
  destruct (decide (k ∈ Object_keys o)) as [|Hn]; [done|].
  destruct (o !! k) as [v|] eqn:E; [|done].
  exfalso. apply Hn. unfold Object_keys.
  apply list_elem_of_fmap. exists (k, v). split; [done|].
  by apply elem_of_map_to_list.
Qed.

Section Stripping.
Variable h : Host.

Lemma format_safe_options_stripped (fo : Obj) :
  (supported h notation_probe = false ->
   format_safe_options h fo !! "notation" = None
   /\ format_safe_options h fo !! "compactDisplay" = None)
  /\ (supported h roundingMode_probe = false ->
      format_safe_options h fo !! "roundingMode" = None)
  /\ (supported h signDisplay_probe = false ->
      format_safe_options h fo !! "signDisplay" = None)
  /\ (supported h unit_probe = false ->
      format_safe_options h fo !! "unit" = None
      /\ format_safe_options h fo !! "unitDisplay" = None)
  /\ (forall k, format_safe_options h fo !! k <> Some VUndefined).
Proof.
  unfold format_safe_options. cbv zeta.
  split; [|split; [|split; [|split]]].
  5: { intros k. rewrite without_undefined_lookup. by destruct (_ !! k) as [[]|]. }
  all: intros Hs; repeat split; rewrite without_undefined_lookup;
       destruct (supported h notation_probe), (supported h roundingMode_probe),
         (supported h signDisplay_probe), (supported h unit_probe);
       try discriminate;
       repeat (rewrite lookup_delete_eq || (rewrite lookup_delete_ne by done));
       reflexivity.
Qed.

Lemma formatRange_safe_options_unit (fo : Obj) k :
  k = "unit" \/ k = "unitDisplay" ->
  formatRange_safe_options h fo !! k = cleaned (fo !! k).
Proof.
  unfold formatRange_safe_options. cbv zeta. rewrite without_undefined_lookup.
  intros [-> | ->];
    destruct (supported h notation_probe), (supported h roundingMode_probe),
      (supported h signDisplay_probe);
    repeat (rewrite lookup_delete_ne by done); reflexivity.
Qed.

Lemma supported_false (probe : M bool) (o : Obj) s :
  probe s = (Normal (supported h o), recorded h s (VString "en") o) ->
  fst (probe s) = Normal false -> supported h o = false.
Proof. intros ->. cbn [fst]. congruence. Qed.

(** The native constructions of a call of [format] are the four probes and
    then one formatter, unless the small-number branch is taken or [Intl] is
    missing; the options of that formatter have no key bound to [undefined]
    and, for each probe that reports [false], none of its keys. *)
Theorem format_strips_unsupported this (v : float) (o : Obj) s :
  valid this s ->
  let D := obj_at s (defaultOptions this) in
  let safe := format_safe_options h (resolved_formatOptions D o) in
  native_calls (snd (format h this v o s))
  = (native_calls s ++ format_native_calls h D v o)%list
  /\ (fst (supportsNotation h s) = Normal false ->
      safe !! "notation" = None /\ safe !! "compactDisplay" = None)
  /\ (fst (supportsRoundingMode h s) = Normal false -> safe !! "roundingMode" = None)
  /\ (fst (supportsSignDisplay h s) = Normal false -> safe !! "signDisplay" = None)
  /\ (fst (supportsUnitFormat h s) = Normal false ->
      safe !! "unit" = None /\ safe !! "unitDisplay" = None)
  /\ (forall k, safe !! k <> Some VUndefined).
Proof.
  intros Hv D safe.
  destruct (format_run_calls h this v o s Hv) as (s' & E & _ & Hc).
  rewrite E. cbn [snd]. split; [exact Hc|].
  destruct (format_safe_options_stripped (resolved_formatOptions D o))
    as (Hn & Hr & Hs & Hu & Hk).
  refine (conj _ (conj _ (conj _ (conj _ Hk)))); intros Hp.
  - by apply Hn, (supported_false _ _ s (supportsNotation_run h s)).
  - by apply Hr, (supported_false _ _ s (supportsRoundingMode_run h s)).
  - by apply Hs, (supported_false _ _ s (supportsSignDisplay_run h s)).
  - by apply Hu, (supported_false _ _ s (supportsUnitFormat_run h s)).
Qed.

(** The native constructions of a call of [formatRange] start with three
    probes (none for units) and one formatter, unless [Intl] is missing;
    the [unit] and [unitDisplay] options of that formatter are the merged
    ones, whatever the unit probe reports. *)
Theorem formatRange_never_strips_unit this (a b : float) (o : Obj) s :
  valid this s ->
  let D := obj_at s (defaultOptions this) in
  let safe := formatRange_safe_options h (resolved_formatOptions D o) in
  (exists rest,
     native_calls (snd (formatRange h this a b o s))
     = ((native_calls s ++ formatRange_native_calls h D o) ++ rest)%list)
  /\ safe !! "unit" = cleaned (spread2 D o !! "unit")
  /\ safe !! "unitDisplay" = cleaned (spread2 D o !! "unitDisplay").
Proof.
  intros Hv D safe.
  destruct (formatRange_run_calls h this a b o s Hv) as (s' & E & _ & Hc).
  rewrite E. cbn [snd]. split; [exact Hc|].
  unfold safe. rewrite !formatRange_safe_options_unit by auto.
  unfold resolved_formatOptions. by rewrite !lookup_delete_ne.
Qed.

(** [format] (and with it [formatCurrency] and [formatPercent]) returns a
    string whenever [value.toLocaleString(this.defaultOptions.locale)], the
    call of its [catch] block, returns one; [formatRange] returns a string
    whenever that holds for both of its values. *)
Theorem format_returns_when_fallback_returns this (v a b : float) (o : Obj) s :
  valid this s ->
  let locale := prop (obj_at s (defaultOptions this)) "locale" in
  (is_normal (toLocaleString h v locale) = true ->
   is_normal (fst (format h this v o s)) = true
   /\ is_normal (fst (formatCurrency h this v o s)) = true
   /\ is_normal (fst (formatPercent h this v o s)) = true)
  /\ (is_normal (toLocaleString h a locale) = true ->
      is_normal (toLocaleString h b locale) = true ->
      is_normal (fst (formatRange h this a b o s)) = true).
Proof.
  intros Hv locale.
  assert (F : forall x o', is_normal (toLocaleString h x locale) = true ->
              is_normal (format_result h (obj_at s (defaultOptions this)) x o') = true).
  { intros x o' Hx. unfold format_result. by destruct (format_try h _ x o'). }
  split.
  - intros Hx.
    assert (G : forall o', is_normal (fst (format h this v o' s)) = true).
    { intros o'. destruct (format_run h this v o' s Hv) as (s' & E & _).
      rewrite E. by apply F. }
    unfold formatCurrency, formatPercent. auto.
  - intros Ha Hb.
    destruct (formatRange_run h this a b o s Hv) as (s' & E & _). rewrite E.
    cbn [fst]. unfold formatRange_result.
    destruct (formatRange_try h _ a b o); [done|].
    pose proof (F a ∅ Ha) as Fa. pose proof (F b ∅ Hb) as Fb.
    destruct (format_result h _ a ∅); [|done].
    by destruct (format_result h _ b ∅).
Qed.

End Stripping.

Lemma format_strips_unsupported_witness :
  valid {| defaultOptions := 0 |}
    (snd (constructor (ToyHost.host ToyHost.no_unit) ∅ ToyHost.init))
  /\ format_safe_options (ToyHost.host ToyHost.no_unit)
       (resolved_formatOptions
          (obj_at (snd (constructor (ToyHost.host ToyHost.no_unit) ∅ ToyHost.init)) 0)
          {[ "unit" := VString "meter" ]})
     !! "unit" = None.
Proof.
  split; [vm_compute; lia|].
  destruct (format_strips_unsupported (ToyHost.host ToyHost.no_unit)
              {| defaultOptions := 0 |} 2.5 {[ "unit" := VString "meter" ]}
              (snd (constructor (ToyHost.host ToyHost.no_unit) ∅ ToyHost.init))
              ltac:(vm_compute; lia))
    as (_ & _ & _ & _ & U & _).
  exact (proj1 (U eq_refl)).
Defined.

Lemma formatRange_never_strips_unit_witness :
  valid {| defaultOptions := 0 |}
    (snd (constructor (ToyHost.host ToyHost.no_unit) ∅ ToyHost.init))
  /\ formatRange_safe_options (ToyHost.host ToyHost.no_unit)
       (resolved_formatOptions
          (obj_at (snd (constructor (ToyHost.host ToyHost.no_unit) ∅ ToyHost.init)) 0)
          {[ "unit" := VString "meter" ]})
     !! "unit" = Some (VString "meter").
Proof.
  split; [vm_compute; lia|].
  destruct (formatRange_never_strips_unit (ToyHost.host ToyHost.no_unit)
              {| defaultOptions := 0 |} 1 2.5 {[ "unit" := VString "meter" ]}
              (snd (constructor (ToyHost.host ToyHost.no_unit) ∅ ToyHost.init))
              ltac:(vm_compute; lia))
    as (_ & U & _).
  etrans; [exact U | reflexivity].
Defined.

Lemma format_returns_when_fallback_returns_witness :
  valid {| defaultOptions := 0 |}
    (snd (constructor (ToyHost.host ToyHost.modern) ∅ ToyHost.init))
  /\ is_normal
       (fst (format (ToyHost.host ToyHost.modern) {| defaultOptions := 0 |} 1234.5
               {[ "locale" := VString "en_US" ]}
               (snd (constructor (ToyHost.host ToyHost.modern) ∅ ToyHost.init))))
     = true.
Proof.
  split; [vm_compute; lia|].
  destruct (format_returns_when_fallback_returns (ToyHost.host ToyHost.modern)
              {| defaultOptions := 0 |} 1234.5 1 2.5
              {[ "locale" := VString "en_US" ]}
              (snd (constructor (ToyHost.host ToyHost.modern) ∅ ToyHost.init))
              ltac:(vm_compute; lia))
    as (F & _).
  exact (proj1 (F eq_refl)).
Defined.

(** * Stripping unsupported options *)

(** C1, evaluated on a host whose [Intl.NumberFormat] lacks unit formatting
    (the unit probe reports [false]) and rejects the options it does not
    know.  [format] strips [unit] and [unitDisplay] and formats natively.
    [formatRange] consults no unit probe: it hands the default
    [unitDisplay: 'short'] to the native constructor, which throws, and the
    call ends in the [catch] block.  On a host with unit formatting the same
    call is formatted natively. *)
Theorem formatRange_keeps_unit_options :
  fst (supportsUnitFormat (ToyHost.host ToyHost.no_unit) ToyHost.init) = Normal false
  /\ ToyHost.run ToyHost.no_unit ∅ (Format 2.5 ∅) = Normal "2.5"
  /\ passes_key "unitDisplay"
       (native_calls (snd (ToyHost.exec ToyHost.no_unit ∅ (Format 2.5 ∅))))
     = false
  /\ console (snd (ToyHost.exec ToyHost.no_unit ∅ (Format 2.5 ∅))) = []
  /\ passes_key "unitDisplay"
       (native_calls (snd (ToyHost.exec ToyHost.no_unit ∅ (FormatRange 1 2.5 ∅))))
     = true
  /\ console (snd (ToyHost.exec ToyHost.no_unit ∅ (FormatRange 1 2.5 ∅)))
     = [RangeFormattingError RangeError]
  /\ ToyHost.run ToyHost.no_unit ∅ (FormatRange 1 2.5 ∅) = Normal "1 - 2.5"
  /\ ToyHost.run ToyHost.modern ∅ (FormatRange 1 2.5 ∅) = Normal "1–2.5".
Proof. repeat split; vm_compute; reflexivity. Qed.

(** * Exceptions that reach the caller *)

(** C2, evaluated.  With the malformed language tag ['en_US'] as the
    instance locale, construction of the native formatter throws, and so
    does the [toLocaleString] call of the [catch] block: [format] and
    [formatRange] throw.  On a host without notation support the fallbacks of
    [formatScientific] and [formatCompact] call [toExponential] and [toFixed]
    outside any [try]: a digit count above 100 is a [RangeError] for the
    caller, where the native path of the same call returns a string. *)
Theorem exceptions_reach_the_caller :
  ToyHost.run ToyHost.modern {[ "locale" := VString "en_US" ]} (Format 1234.5 ∅)
  = Throw RangeError
  /\ ToyHost.run ToyHost.modern {[ "locale" := VString "en_US" ]}
       (FormatRange 1 2.5 ∅)
     = Throw RangeError
  /\ ToyHost.run ToyHost.no_notation ∅
       (FormatScientific 1234.5
          (<[ "minimumSignificantDigits" := VNumber 102 ]>
             {[ "maximumSignificantDigits" := VNumber 102 ]}))
     = Throw RangeError
  /\ ToyHost.run ToyHost.modern ∅
       (FormatScientific 1234.5
          (<[ "minimumSignificantDigits" := VNumber 102 ]>
             {[ "maximumSignificantDigits" := VNumber 102 ]}))
     = Normal "1234.5"
  /\ ToyHost.run ToyHost.no_notation ∅
       (FormatCompact 1500
          (<[ "minimumFractionDigits" := VNumber 101 ]>
             {[ "maximumFractionDigits" := VNumber 101 ]}))
     = Throw RangeError.
Proof. repeat split; vm_compute; reflexivity. Qed.

(** * The theorems at concrete inputs *)

Lemma formatCompact_fallback_witness :
  fst (supportsNotation (ToyHost.host ToyHost.no_notation)
         (snd (constructor (ToyHost.host ToyHost.no_notation) ∅ ToyHost.init)))
  = Normal false
  /\ fst (formatCompact (ToyHost.host ToyHost.no_notation) {| defaultOptions := 0 |}
            (-1500) ∅
            (snd (constructor (ToyHost.host ToyHost.no_notation) ∅ ToyHost.init)))
     = Normal "-1.5K"
  /\ fst (formatCompact (ToyHost.host ToyHost.no_notation) {| defaultOptions := 0 |}
            2500000000000 {[ "maximumFractionDigits" := VNumber 3 ]}
            (snd (constructor (ToyHost.host ToyHost.no_notation) ∅ ToyHost.init)))
     = Normal "2.5T".
Proof.
  split; [reflexivity | split].
  - destruct (formatCompact_fallback (ToyHost.host ToyHost.no_notation)
                {| defaultOptions := 0 |} (-1500) ∅
                (snd (constructor (ToyHost.host ToyHost.no_notation) ∅ ToyHost.init))
                eq_refl) as (_ & _ & _ & K & _).
    rewrite (K eq_refl eq_refl). vm_compute. reflexivity.
  - destruct (formatCompact_fallback (ToyHost.host ToyHost.no_notation)
                {| defaultOptions := 0 |} 2500000000000
                {[ "maximumFractionDigits" := VNumber 3 ]}
                (snd (constructor (ToyHost.host ToyHost.no_notation) ∅ ToyHost.init))
                eq_refl) as (T & _).
    rewrite (T eq_refl). vm_compute. reflexivity.
Defined.

Lemma formatScientific_fallback_witness :
  fst (supportsNotation (ToyHost.host ToyHost.no_notation)
         (snd (constructor (ToyHost.host ToyHost.no_notation) ∅ ToyHost.init)))
  = Normal false
  /\ fst (formatScientific (ToyHost.host ToyHost.no_notation) {| defaultOptions := 0 |}
            1234.5 ∅
            (snd (constructor (ToyHost.host ToyHost.no_notation) ∅ ToyHost.init)))
     = Normal "1.23e+3".
Proof.
  split; [reflexivity|].
  destruct (formatScientific_fallback (ToyHost.host ToyHost.no_notation)
              {| defaultOptions := 0 |} 1234.5 ∅
              (snd (constructor (ToyHost.host ToyHost.no_notation) ∅ ToyHost.init))
              eq_refl) as [E _].
  rewrite E. vm_compute. reflexivity.
Defined.

Lemma format_small_number_witness :
  js_lt (Math_abs 0x1p-24) Math_pow_10_m6 = true
  /\ truthy (prop {[ "minimumFractionDigits" := VNumber 9 ]} "minimumFractionDigits")
     = true
  /\ fst (format (ToyHost.host ToyHost.modern) {| defaultOptions := 0 |} 0x1p-24
            {[ "minimumFractionDigits" := VNumber 9 ]}
            (snd (constructor (ToyHost.host ToyHost.modern)
                    {[ "locale" := VString "de-DE" ]} ToyHost.init)))
     = Normal "0.000000060".
Proof.
  split; [reflexivity | split; [reflexivity|]].
  destruct (format_small_number (ToyHost.host ToyHost.modern)
              {| defaultOptions := 0 |} 0x1p-24
              {[ "minimumFractionDigits" := VNumber 9 ]}
              (snd (constructor (ToyHost.host ToyHost.modern)
                      {[ "locale" := VString "de-DE" ]} ToyHost.init)))
    as [S _].
  destruct (S eq_refl eq_refl) as [E _]. rewrite E. vm_compute. reflexivity.
Defined.

Lemma formatRange_separator_witness :
  valid {| defaultOptions := 0 |}
    (snd (constructor (ToyHost.host ToyHost.no_formatRange)
            {[ "locale" := VString "ja-JP" ]} ToyHost.init))
  /\ fst (formatRange (ToyHost.host ToyHost.no_formatRange) {| defaultOptions := 0 |}
            1 2.5 ∅
            (snd (constructor (ToyHost.host ToyHost.no_formatRange)
                    {[ "locale" := VString "ja-JP" ]} ToyHost.init)))
     = Normal "1～2.5".
Proof.
  split; [vm_compute; lia|].
  destruct (formatRange_separator (ToyHost.host ToyHost.no_formatRange)
              {| defaultOptions := 0 |} 1 2.5 ∅
              (snd (constructor (ToyHost.host ToyHost.no_formatRange)
                      {[ "locale" := VString "ja-JP" ]} ToyHost.init))
              {| nf_new := ToyHost.toy_new ToyHost.no_formatRange;
                 nf_has_formatRange := false |}
              (ToyHost.toy_formatter 0 2) "1" "2.5" "ja-JP"
              ltac:(vm_compute; lia) eq_refl eq_refl eq_refl eq_refl eq_refl eq_refl)
    as (separator & E & J & _).
  rewrite E, J by (right; left; reflexivity). reflexivity.
Defined.
